(** * Cloud Dronitor API: a shallow embedding of [main.py]

    The service ingests CSV sensor readings ([POST /upload]), serves them
    back filtered by date ([GET /readings]) and reads per-date flat files
    ([GET /files/{date}]); every endpoint is gated by an API key.

    Modelling conventions.
    - A Python [str] is a [string]; one [ascii] stands for one character.
    - A Python [int] is a [Z]; an index produced by [enumerate] is a [nat].
    - A Python [float] is kept abstract (class [PyFloat]): the handlers only
      parse, store and print floats, they never compute with them.
    - A raised exception is a value of [exn]; a handler returns an
      [outcome]: a value, an [HTTPException], or an exception nobody caught
      (which the framework turns into status 500).
    - The database table, the wall clock and the data directory are
      explicit state: see [World]. *)

From Stdlib Require Import ZArith List String Ascii Bool Lia.
From Stdlib Require Import DecimalString DecimalNat.
From stdpp Require Import base decidable option list sorting gmap strings.

Local Open Scope string_scope.
Local Open Scope list_scope.
Local Open Scope Z_scope.

(** ** Exceptions and handler outcomes *)

Inductive exn : Type :=
  | ValueError
  | OverflowError
  | CsvError
  | IntegrityError.

Inductive outcome (A : Type) : Type :=
  | Return (a : A)
  | HTTPException (status_code : Z) (detail : string)
  | Uncaught (e : exn).

Arguments Return {A} a.
Arguments HTTPException {A} status_code detail.
Arguments Uncaught {A} e.

(** The status line the client sees. *)
Definition status_of {A} (o : outcome A) : Z :=
  match o with
  | Return _ => 200
  | HTTPException c _ => c
  | Uncaught _ => 500
  end.

Definition HTTP_403_FORBIDDEN : Z := 403.

(** A computation that may raise: [inl e] is [raise e]. *)
Definition raising (A : Type) : Type := exn + A.

Definition bind_raising {A B} (m : raising A) (k : A -> raising B) : raising B :=
  match m with
  | inl e => inl e
  | inr a => k a
  end.

Notation "'let!' x ':=' m 'in' k" := (bind_raising m (fun x => k))
  (at level 10, x name, m at level 100, k at level 200).

(** ** Python string operations used by the handlers *)

Module PyStr.

Definition LF : ascii := "010"%char.
Definition CR : ascii := "013"%char.
Definition COMMA : ascii := ","%char.
Definition QUOTE : ascii := "034"%char.
Definition UNDERSCORE : ascii := "_"%char.

(** [s.split(sep)] for a one-character separator: never returns [[]]. *)
Fixpoint split (sep : ascii) (s : string) : list string :=
  match s with
  | EmptyString => [EmptyString]
  | String c s' =>
      if Ascii.eqb c sep then EmptyString :: split sep s'
      else match split sep s' with
           | f :: fs => String c f :: fs
           | [] => [String c EmptyString]
           end
  end.

(** [sep.join(parts)]. *)
Definition join (sep : string) (parts : list string) : string :=
  String.concat sep parts.

(** [str.isspace] on one character (code points below 256). *)
Definition isspace (c : ascii) : bool :=
  let n := N_of_ascii c in
  ((9 <=? n) && (n <=? 13) || (28 <=? n) && (n <=? 32)
   || (n =? 133) || (n =? 160))%N.

Fixpoint lstrip (s : string) : string :=
  match s with
  | String c s' => if isspace c then lstrip s' else s
  | EmptyString => EmptyString
  end.

(** [s.strip()]. *)
Definition strip (s : string) : string :=
  String.rev (lstrip (String.rev (lstrip s))).

(** Line boundaries of [str.splitlines] (code points below 256);
    the pair CR LF counts as one boundary. *)
Definition is_linebreak (c : ascii) : bool :=
  let n := N_of_ascii c in
  ((10 <=? n) && (n <=? 13) || (28 <=? n) && (n <=? 30) || (n =? 133))%N.

Fixpoint splitlines_go (cur : string) (s : string) : list string :=
  match s with
  | EmptyString =>
      match cur with EmptyString => [] | _ => [String.rev cur] end
  | String c s' =>
      if is_linebreak c then
        String.rev cur ::
          match s' with
          | String c' s'' =>
              if Ascii.eqb c CR && Ascii.eqb c' LF
              then splitlines_go EmptyString s''
              else splitlines_go EmptyString s'
          | EmptyString => []
          end
      else splitlines_go (String c cur) s'
  end.

(** [s.splitlines()]. *)
Definition splitlines (s : string) : list string :=
  splitlines_go EmptyString s.

(** [str(n)] for a non-negative [int]. *)
Definition of_nat (n : nat) : string :=
  NilEmpty.string_of_uint (Nat.to_uint n).

Fixpoint mem (c : ascii) (s : string) : bool :=
  match s with
  | EmptyString => false
  | String c' s' => Ascii.eqb c c' || mem c s'
  end.

(** [needle in hay]. *)
Fixpoint contains (needle hay : string) : bool :=
  String.prefix needle hay ||
  match hay with
  | EmptyString => false
  | String _ hay' => contains needle hay'
  end.

End PyStr.

(** ** [datetime.datetime] *)

Record datetime : Type := mk_datetime {
  dt_year : Z; dt_month : Z; dt_day : Z;
  dt_hour : Z; dt_minute : Z; dt_second : Z; dt_microsecond : Z
}.

Module Datetime.

Definition MINYEAR : Z := 1.
Definition MAXYEAR : Z := 9999.

Definition is_leap (year : Z) : bool :=
  (year mod 4 =? 0) && (negb (year mod 100 =? 0) || (year mod 400 =? 0)).

Definition DAYS_IN_MONTH : list Z :=
  [-1; 31; 28; 31; 30; 31; 30; 31; 31; 30; 31; 30; 31].

Definition days_in_month (year month : Z) : Z :=
  if (month =? 2) && is_leap year then 29
  else nth (Z.to_nat month) DAYS_IN_MONTH 0.

(** The C constructor first converts every argument to a C [int]. *)
Definition fits_c_int (z : Z) : bool := (- 2 ^ 31 <=? z) && (z <? 2 ^ 31).

Definition between (lo z hi : Z) : bool := (lo <=? z) && (z <=? hi).

(** [datetime(year, month, day, hour, minute, second, microsecond)]. *)
Definition new (year month day hour minute second microsecond : Z)
  : raising datetime :=
  if negb (forallb fits_c_int
             [year; month; day; hour; minute; second; microsecond])
  then inl OverflowError
  else if negb (between MINYEAR year MAXYEAR) then inl ValueError
  else if negb (between 1 month 12) then inl ValueError
  else if negb (between 1 day (days_in_month year month)) then inl ValueError
  else if negb (between 0 hour 23) then inl ValueError
  else if negb (between 0 minute 59) then inl ValueError
  else if negb (between 0 second 59) then inl ValueError
  else if negb (between 0 microsecond 999999) then inl ValueError
  else inr (mk_datetime year month day hour minute second microsecond).

(** [datetime(year, month, day)]: the time of day defaults to midnight. *)
Definition of_date (year month day : Z) : raising datetime :=
  new year month day 0 0 0 0.

Definition to_tuple (t : datetime) : list Z :=
  [dt_year t; dt_month t; dt_day t;
   dt_hour t; dt_minute t; dt_second t; dt_microsecond t].

(** Tuple comparison, as [datetime._cmp] does it. *)
Fixpoint cmp_tuple (a b : list Z) : comparison :=
  match a, b with
  | [], [] => Eq
  | [], _ :: _ => Lt
  | _ :: _, [] => Gt
  | x :: a', y :: b' =>
      match x ?= y with
      | Eq => cmp_tuple a' b'
      | c => c
      end
  end.

Definition cmp (a b : datetime) : comparison :=
  cmp_tuple (to_tuple a) (to_tuple b).

(** [a < b] and [a >= b] on timestamps. *)
Definition ltb (a b : datetime) : bool :=
  match cmp a b with Lt => true | _ => false end.

Definition geb (a b : datetime) : bool := negb (ltb a b).

Definition leb (a b : datetime) : bool := negb (ltb b a).

(** [%0<width>d]. *)
Definition zero_pad (width : nat) (n : Z) : string :=
  let digits := PyStr.of_nat (Z.to_nat n) in
  String.concat EmptyString
    (replicate (width - String.length digits)%nat "0") +:+ digits.

(** [t.isoformat()]. *)
Definition isoformat (t : datetime) : string :=
  zero_pad 4 (dt_year t) +:+ "-" +:+ zero_pad 2 (dt_month t) +:+ "-" +:+
  zero_pad 2 (dt_day t) +:+ "T" +:+ zero_pad 2 (dt_hour t) +:+ ":" +:+
  zero_pad 2 (dt_minute t) +:+ ":" +:+ zero_pad 2 (dt_second t) +:+
  (if dt_microsecond t =? 0 then EmptyString
   else "." +:+ zero_pad 6 (dt_microsecond t)).

End Datetime.

(** ** Python floats, as far as the handlers use them *)

Class PyFloat : Type := {
  float : Type;
  (** [float(s)]; [None] stands for [ValueError]. *)
  float_of_str : string -> option float;
  (** [str(x)], which is what an f-string field [{x}] prints. *)
  str_of_float : float -> string;
  (** [t.timestamp()]: POSIX seconds as a float. *)
  posix_timestamp : datetime -> float
}.

(** ** [io.StringIO] and [csv.reader]

    [csv.reader(StringIO(text))] in its default (excel) dialect: a comma
    as delimiter, the double quote as quote character (doubled inside a
    quoted field), no escape character, not strict.  The reader is fed the lines of the text, each line keeping its
    terminating LF, and runs the state machine of the C module on every
    character, followed by an end-of-line mark. *)

Module Csv.

(** Iterating over [StringIO(text)]: lines end after each LF. *)
Fixpoint StringIO_go (cur : string) (s : string) : list string :=
  match s with
  | EmptyString =>
      match cur with EmptyString => [] | _ => [String.rev cur] end
  | String c s' =>
      if Ascii.eqb c PyStr.LF
      then String.rev (String c cur) :: StringIO_go EmptyString s'
      else StringIO_go (String c cur) s'
  end.

Definition StringIO (text : string) : list string :=
  StringIO_go EmptyString text.

(** The states that need an escape character are left out: the excel
    dialect has none. *)
Inductive ParserState : Type :=
  | START_RECORD | START_FIELD | IN_FIELD
  | IN_QUOTED_FIELD | QUOTE_IN_QUOTED_FIELD | EAT_CRNL.

Record ReaderObj : Type := mk_reader {
  state : ParserState;
  field : string;
  fields : list string
}.

Definition field_limit : N := 131072%N.

Inductive input : Type :=
  | Chr (c : ascii)
  | EOL.

Definition parse_reset : ReaderObj := mk_reader START_RECORD EmptyString [].

Definition set_state (st : ParserState) (r : ReaderObj) : ReaderObj :=
  mk_reader st (field r) (fields r).

Definition parse_save_field (r : ReaderObj) : ReaderObj :=
  mk_reader (state r) EmptyString (fields r ++ [field r]).

Definition parse_add_char (r : ReaderObj) (c : ascii) : raising ReaderObj :=
  if (field_limit <=? N.of_nat (String.length (field r)))%N then inl CsvError
  else inr (mk_reader (state r) (field r +:+ String c EmptyString) (fields r)).

Definition is_newline (c : ascii) : bool :=
  Ascii.eqb c PyStr.LF || Ascii.eqb c PyStr.CR.

Definition start_field (r : ReaderObj) (i : input) : raising ReaderObj :=
  match i with
  | EOL => inr (set_state START_RECORD (parse_save_field r))
  | Chr c =>
      if is_newline c then inr (set_state EAT_CRNL (parse_save_field r))
      else if Ascii.eqb c PyStr.QUOTE then inr (set_state IN_QUOTED_FIELD r)
      else if Ascii.eqb c PyStr.COMMA then inr (parse_save_field r)
      else let! r' := parse_add_char r c in inr (set_state IN_FIELD r')
  end.

Definition parse_process_char (r : ReaderObj) (i : input) : raising ReaderObj :=
  match state r with
  | START_RECORD =>
      match i with
      | EOL => inr r
      | Chr c =>
          if is_newline c then inr (set_state EAT_CRNL r)
          else start_field (set_state START_FIELD r) i
      end
  | START_FIELD => start_field r i
  | IN_FIELD =>
      match i with
      | EOL => inr (set_state START_RECORD (parse_save_field r))
      | Chr c =>
          if is_newline c then inr (set_state EAT_CRNL (parse_save_field r))
          else if Ascii.eqb c PyStr.COMMA
               then inr (set_state START_FIELD (parse_save_field r))
          else parse_add_char r c
      end
  | IN_QUOTED_FIELD =>
      match i with
      | EOL => inr r
      | Chr c =>
          if Ascii.eqb c PyStr.QUOTE
          then inr (set_state QUOTE_IN_QUOTED_FIELD r)
          else parse_add_char r c
      end
  | QUOTE_IN_QUOTED_FIELD =>
      match i with
      | EOL => inr (set_state START_RECORD (parse_save_field r))
      | Chr c =>
          if Ascii.eqb c PyStr.QUOTE
          then let! r' := parse_add_char r c in
               inr (set_state IN_QUOTED_FIELD r')
          else if Ascii.eqb c PyStr.COMMA
               then inr (set_state START_FIELD (parse_save_field r))
          else if is_newline c
               then inr (set_state EAT_CRNL (parse_save_field r))
          else let! r' := parse_add_char r c in inr (set_state IN_FIELD r')
      end
  | EAT_CRNL =>
      match i with
      | EOL => inr (set_state START_RECORD r)
      | Chr c => if is_newline c then inr r else inl CsvError
      end
  end.

(** The characters of one line, then the end-of-line mark. *)
Fixpoint feed_line (r : ReaderObj) (line : string) : raising ReaderObj :=
  match line with
  | EmptyString => parse_process_char r EOL
  | String c line' =>
      let! r' := parse_process_char r (Chr c) in feed_line r' line'
  end.

Definition in_quoted_field (r : ReaderObj) : bool :=
  match state r with IN_QUOTED_FIELD => true | _ => false end.

Definition at_start_record (r : ReaderObj) : bool :=
  match state r with START_RECORD => true | _ => false end.

(** Repeated [next(reader)]: the rows yielded, and the error that ended
    the iteration, if any.  A record is complete when a line leaves the
    machine in [START_RECORD]; when the lines run out inside a record,
    what was read so far is yielded as the last row. *)
Fixpoint iter_rows (r : ReaderObj) (lines : list string)
  : list (list string) * option exn :=
  match lines with
  | [] =>
      if negb (String.length (field r) =? 0)%nat || in_quoted_field r
      then ([fields (parse_save_field r)], None)
      else ([], None)
  | line :: rest =>
      match feed_line r line with
      | inl e => ([], Some e)
      | inr r' =>
          if at_start_record r'
          then let (rows, e) := iter_rows parse_reset rest in
               (fields r' :: rows, e)
          else iter_rows r' rest
      end
  end.

Definition reader (lines : list string) : list (list string) * option exn :=
  iter_rows parse_reset lines.

End Csv.

Definition LF_s : string := String PyStr.LF EmptyString.
Definition CR_s : string := String PyStr.CR EmptyString.
Definition QUOTE_s : string := String PyStr.QUOTE EmptyString.

(** ** The environment of the process and the state of the world *)

(** What the process is started with: the float primitives of the
    interpreter, the configured key set, the data directory, and the wall
    clock ([utcnow n] is what the [n]-th call of [datetime.utcnow()]
    returns). *)
Class Env : Type := {
  env_float :: PyFloat;
  API_KEYS : gset string;
  DATA_DIR : string;
  utcnow : nat -> datetime
}.

(** [get_api_keys], applied to the value of the [API_KEYS] variable. *)
Definition get_api_keys (api_keys_str : string) : gset string :=
  list_to_set (map PyStr.strip (PyStr.split PyStr.COMMA api_keys_str)).

Section Service.

Context {env : Env}.

(** *** Database model: table [drone_readings] *)

Record DroneReading : Type := mk_reading {
  id : string;
  longitude : float;
  latitude : float;
  aqi : float;
  timestamp : datetime;
  raw_data : option string
}.

(** The table, the number of clock readings taken so far, and the files
    of the data directory (path to text content). *)
Record World : Type := mk_world {
  db : list DroneReading;
  clock_reads : nat;
  files : gmap string string
}.

(** [db.add_all(readings); await db.commit()]: [id] is the primary key,
    so the insert is rejected as a whole when an id would occur twice. *)
Definition commit (table readings : list DroneReading)
  : raising (list DroneReading) :=
  if bool_decide (NoDup (map id (table ++ readings)))
  then inr (table ++ readings)
  else inl IntegrityError.

(** *** API key verification *)

Definition verify_api_key (api_key : string) : outcome string :=
  if negb (bool_decide (api_key ∈ API_KEYS))
  then HTTPException HTTP_403_FORBIDDEN "Invalid API key"
  else Return api_key.

(** [Depends(verify_api_key)]: the dependency is resolved before the
    handler is called; when it raises, the handler is not called. *)
Definition depends_verify_api_key {A} (api_key : string)
    (handler : World -> outcome A * World) (w : World)
  : outcome A * World :=
  match verify_api_key api_key with
  | Return _ => handler w
  | HTTPException c d => (HTTPException c d, w)
  | Uncaught e => (Uncaught e, w)
  end.

(** *** [POST /upload] *)

(** The f-string of the [id] column. *)
Definition make_id (current_time : datetime) (lon lat : float) (idx : nat)
  : string :=
  str_of_float (posix_timestamp current_time) +:+ "_" +:+
  str_of_float lon +:+ "_" +:+ str_of_float lat +:+ "_" +:+ PyStr.of_nat idx.

(** [float(row[0]), float(row[1]), float(row[2])], left to right. *)
Definition parse_floats (row : list string) : option (float * float * float) :=
  match float_of_str (nth 0 row EmptyString) with
  | None => None
  | Some lon =>
      match float_of_str (nth 1 row EmptyString) with
      | None => None
      | Some lat =>
          match float_of_str (nth 2 row EmptyString) with
          | None => None
          | Some a => Some (lon, lat, a)
          end
      end
  end.

(** The body of the [for idx, row in enumerate(csv_reader)] loop, over
    the rows the reader yields; [clk] counts the clock readings. *)
Fixpoint upload_loop (idx : nat) (rows : list (list string)) (clk : nat)
    (readings : list DroneReading) : list DroneReading * nat :=
  match rows with
  | [] => (readings, clk)
  | row :: rest =>
      if negb (length row =? 3)%nat
      then upload_loop (S idx) rest clk readings
      else
        match parse_floats row with
        | Some (lon, lat, a) =>
            let current_time := utcnow clk in
            let reading :=
              mk_reading (make_id current_time lon lat idx) lon lat a
                         current_time
                         (Some (PyStr.join "," row)) in
            upload_loop (S idx) rest (S clk) (readings ++ [reading])
        | None => upload_loop (S idx) rest clk readings
        end
  end.

Definition upload_message (n : nat) : string :=
  "Successfully uploaded " +:+ PyStr.of_nat n +:+ " readings".

(** [text_content] is the body of the uploaded file after
    [content.decode()]; a body that is not UTF-8 makes [decode] raise
    before anything below runs, and is not modelled.  The reader is
    lazy, so the rows it yields before an error have been through the loop
    when the error escapes; nothing has been committed by then. *)
Definition upload_data (text_content : string) (w : World)
  : outcome string * World :=
  let (rows, err) := Csv.reader (Csv.StringIO text_content) in
  let (readings, clk) := upload_loop 0 rows (clock_reads w) [] in
  match err with
  | Some e => (Uncaught e, mk_world (db w) clk (files w))
  | None =>
      match commit (db w) readings with
      | inl e => (Uncaught e, mk_world (db w) clk (files w))
      | inr table =>
          (Return (upload_message (length readings)),
           mk_world table clk (files w))
      end
  end.

(** *** [GET /readings] *)

Record ReadingOut : Type := mk_out {
  out_longitude : float;
  out_latitude : float;
  out_aqi : float;
  out_timestamp : string;
  out_raw_data : option string
}.

Definition to_dict (reading : DroneReading) : ReadingOut :=
  mk_out (longitude reading) (latitude reading) (aqi reading)
         (Datetime.isoformat (timestamp reading)) (raw_data reading).

(** [order_by(DroneReading.timestamp.desc())]. *)
Definition newest_first (a b : DroneReading) : Prop :=
  Datetime.leb (timestamp b) (timestamp a).

Global Instance newest_first_dec a b : Decision (newest_first a b).
Proof. unfold newest_first. apply _. Defined.

Definition order_by_timestamp_desc (l : list DroneReading)
  : list DroneReading :=
  merge_sort newest_first l.

(** The [where] clause: [timestamp >= start_date] and
    [timestamp < end_date]. *)
Definition in_window (start_date end_date : datetime) (r : DroneReading)
  : bool :=
  Datetime.geb (timestamp r) start_date && Datetime.ltb (timestamp r) end_date.

(** The date filter of the request: [None] when [year] is absent. *)
Definition date_filter (year month day : option Z)
  : raising (option (datetime * datetime)) :=
  match year with
  | None => inr None
  | Some year =>
      match month with
      | Some month =>
          match day with
          | Some day =>
              let! start_date := Datetime.of_date year month day in
              let! end_date := Datetime.new year month day 23 59 59 0 in
              inr (Some (start_date, end_date))
          | None =>
              let (next_year, next_month) :=
                if month =? 12 then (year + 1, 1) else (year, month + 1) in
              let! start_date := Datetime.of_date year month 1 in
              let! end_date := Datetime.of_date next_year next_month 1 in
              inr (Some (start_date, end_date))
          end
      | None =>
          let! start_date := Datetime.of_date year 1 1 in
          let! end_date := Datetime.of_date (year + 1) 1 1 in
          inr (Some (start_date, end_date))
      end
  end.

(** The [where] clause of the query; without a year nothing is
    filtered. *)
Definition where_clause (window : option (datetime * datetime))
    (r : DroneReading) : bool :=
  match window with
  | None => true
  | Some (start_date, end_date) => in_window start_date end_date r
  end.

(** [db.execute(query)] followed by [result.scalars().all()]. *)
Definition execute (window : option (datetime * datetime))
    (table : list DroneReading) : list DroneReading :=
  order_by_timestamp_desc (filter (λ r, where_clause window r) table).

Definition get_readings (year month day : option Z) (w : World)
  : outcome (list ReadingOut) * World :=
  match date_filter year month day with
  | inl e => (Uncaught e, w)
  | inr window =>
      let readings := execute window (db w) in
      match readings with
      | [] => (Return [], w)
      | _ => (Return (map to_dict readings), w)
      end
  end.

(** *** [GET /files/{date}] *)

Record FileReading : Type := mk_file_reading {
  f_longitude : float;
  f_latitude : float;
  f_aqi : float;
  f_timestamp : string
}.

(** One iteration of the loop over the lines: the unpacking of the split
    line raises [ValueError] unless it has four parts, and so does each
    [float]. *)
Definition parse_line (line : string) : raising FileReading :=
  match PyStr.split PyStr.COMMA (PyStr.strip line) with
  | [lon; lat; a; ts] =>
      match float_of_str lon with
      | None => inl ValueError
      | Some lon' =>
          match float_of_str lat with
          | None => inl ValueError
          | Some lat' =>
              match float_of_str a with
              | None => inl ValueError
              | Some a' => inr (mk_file_reading lon' lat' a' ts)
              end
          end
      end
  | _ => inl ValueError
  end.

Fixpoint read_lines (lines : list string) (readings : list FileReading)
  : raising (list FileReading) :=
  match lines with
  | [] => inr readings
  | line :: rest =>
      let! reading := parse_line line in
      read_lines rest (readings ++ [reading])
  end.

(** [DATA_DIR / f"{date}.csv"]; [date] is one segment of the URL path. *)
Definition file_path (date : string) : string :=
  DATA_DIR +:+ "/" +:+ date +:+ ".csv".

Definition get_file_data (date : string) (w : World)
  : outcome (list FileReading) * World :=
  match files w !! file_path date with
  | None => (HTTPException 404 "No data for this date", w)
  | Some content =>
      match read_lines (PyStr.splitlines content) [] with
      | inr readings => (Return readings, w)
      | inl ValueError => (HTTPException 400 "Invalid date format", w)
      | inl e => (Uncaught e, w)
      end
  end.

(** *** The three routes, each behind [Depends(verify_api_key)] *)

Definition route_upload (api_key : string) (text_content : string)
  : World -> outcome string * World :=
  depends_verify_api_key api_key (upload_data text_content).

Definition route_readings (api_key : string) (year month day : option Z)
  : World -> outcome (list ReadingOut) * World :=
  depends_verify_api_key api_key (get_readings year month day).

Definition route_files (api_key : string) (date : string)
  : World -> outcome (list FileReading) * World :=
  depends_verify_api_key api_key (get_file_data date).

End Service.

(** ** A concrete environment, to run the handlers

    Floats restricted to plain decimal literals (optional sign, digits,
    optional fraction), kept as sign, integer part and fraction digits
    without trailing zeros; they print the way Python prints such values.
    Everything proved below holds for every [Env]; this one instantiates
    the statements at concrete requests. *)

Module DecimalFloat.

Record t : Type := mk { negative : bool; int_part : N; frac_digits : string }.

Definition is_digit (c : ascii) : bool :=
  let n := N_of_ascii c in ((48 <=? n) && (n <=? 57))%N.

Fixpoint all_digits (s : string) : bool :=
  match s with
  | EmptyString => true
  | String c s' => is_digit c && all_digits s'
  end.

Definition N_of_digits (s : string) : N :=
  match NilEmpty.uint_of_string s with
  | Some d => N.of_uint d
  | None => 0%N
  end.

Fixpoint drop_zeros (s : string) : string :=
  match s with
  | String c s' => if Ascii.eqb c "0" then drop_zeros s' else s
  | EmptyString => EmptyString
  end.

Definition trim_trailing_zeros (s : string) : string :=
  String.rev (drop_zeros (String.rev s)).

Definition is_empty (s : string) : bool :=
  match s with EmptyString => true | _ => false end.

Definition parse (s : string) : option t :=
  let s := PyStr.strip s in
  let '(neg, body) :=
    match s with
    | String "-" rest => (true, rest)
    | String "+" rest => (false, rest)
    | _ => (false, s)
    end in
  match PyStr.split "." body with
  | [i] =>
      if all_digits i && negb (is_empty i)
      then Some (mk neg (N_of_digits i) EmptyString) else None
  | [i; f] =>
      if all_digits i && all_digits f && negb (is_empty i && is_empty f)
      then Some (mk neg (N_of_digits i) (trim_trailing_zeros f)) else None
  | _ => None
  end.

Definition print (x : t) : string :=
  (if negative x then "-" else EmptyString) +:+
  NilEmpty.string_of_uint (N.to_uint (int_part x)) +:+ "." +:+
  (if is_empty (frac_digits x) then "0" else frac_digits x).

(** Days from 1970-01-01 to the given civil date. *)
Definition days_from_civil (y m d : Z) : Z :=
  let y' := if m <=? 2 then y - 1 else y in
  let era := y' / 400 in
  let yoe := y' - era * 400 in
  let doy := (153 * (if m >? 2 then m - 3 else m + 9) + 2) / 5 + d - 1 in
  let doe := yoe * 365 + yoe / 4 - yoe / 100 + doy in
  era * 146097 + doe - 719468.

(** POSIX seconds of a datetime read as UTC. *)
Definition timestamp (t : datetime) : DecimalFloat.t :=
  let secs := days_from_civil (dt_year t) (dt_month t) (dt_day t) * 86400
              + dt_hour t * 3600 + dt_minute t * 60 + dt_second t in
  mk (secs <? 0) (Z.to_N (Z.abs secs))
     (trim_trailing_zeros (Datetime.zero_pad 6 (dt_microsecond t))).

Definition py_float : PyFloat :=
  {| float := t; float_of_str := parse; str_of_float := print;
     posix_timestamp := timestamp |}.

End DecimalFloat.

(** A clock that advances by one microsecond per reading. *)
Definition ticking_clock (n : nat) : datetime :=
  mk_datetime 2024 3 15 12 0 0 (Z.of_nat n mod 1000000).

(** A clock too coarse to tell two readings apart. *)
Definition coarse_clock (_ : nat) : datetime :=
  mk_datetime 2024 3 15 12 0 0 0.

Definition example_env (clock : nat -> datetime) : Env :=
  {| env_float := DecimalFloat.py_float;
     API_KEYS := {[ "your-api-key-here" ]};
     DATA_DIR := "data";
     utcnow := clock |}.

(** ** Vocabulary of the specification *)

Section Vocabulary.

Context {env : Env}.

(** A timestamp lies in the half-open window from [a] to [b]. *)
Definition in_half_open (a b t : datetime) : bool :=
  Datetime.leb a t && Datetime.ltb t b.

Definition midnight (year month day : Z) : datetime :=
  mk_datetime year month day 0 0 0 0.

Definition first_of_month (year month : Z) : datetime :=
  midnight year month 1.

(** The first of the following month; December rolls into January of
    the following year. *)
Definition first_of_next_month (year month : Z) : datetime :=
  if month =? 12 then midnight (year + 1) 1 1
  else midnight year (month + 1) 1.

(** [year], [month], [day] name a day of the calendar. *)
Definition valid_date (year month day : Z) : Prop :=
  Datetime.MINYEAR <= year <= Datetime.MAXYEAR /\ 1 <= month <= 12
  /\ 1 <= day <= Datetime.days_in_month year month.

(** A CSV row with exactly three fields, each of which [float] accepts. *)
Definition numeric_row (row : list string) : bool :=
  match row with
  | [f0; f1; f2] =>
      bool_decide (is_Some (float_of_str f0))
      && bool_decide (is_Some (float_of_str f1))
      && bool_decide (is_Some (float_of_str f2))
  | _ => false
  end.

(** A line of a data file that splits on commas into exactly four
    fields, the first three of which [float] accepts. *)
Definition well_formed_line (line : string) : Prop :=
  exists lon lat a ts,
    PyStr.split PyStr.COMMA (PyStr.strip line) = [lon; lat; a; ts]
    /\ is_Some (float_of_str lon) /\ is_Some (float_of_str lat)
    /\ is_Some (float_of_str a).

(** The record returned for a line: its three numbers and the fourth
    field as text. *)
Definition line_record (line : string) (r : FileReading) : Prop :=
  exists lon lat a,
    PyStr.split PyStr.COMMA (PyStr.strip line) = [lon; lat; a; f_timestamp r]
    /\ float_of_str lon = Some (f_longitude r)
    /\ float_of_str lat = Some (f_latitude r)
    /\ float_of_str a = Some (f_aqi r).

(** The batch of readings that [upload_data] builds from a payload. *)
Definition batch (text_content : string) (w : World) : list DroneReading :=
  fst (upload_loop 0 (fst (Csv.reader (Csv.StringIO text_content)))
                   (clock_reads w) []).

(** A reading built from a row: its three numbers are the parsed fields
    and its [raw_data] is the row joined with commas. *)
Definition reading_of_row (row : list string) (r : DroneReading) : Prop :=
  parse_floats row = Some (longitude r, latitude r, aqi r)
  /\ raw_data r = Some (PyStr.join "," row).

(** The id ends in an underscore and the position of the row. *)
Definition id_tagged (lo hi : nat) (r : DroneReading) : Prop :=
  exists prefix j,
    id r = prefix +:+ String PyStr.UNDERSCORE (PyStr.of_nat j)
    /\ (lo <= j < hi)%nat.

(** One request to one of the three routes. *)
Inductive request_step : World -> World -> Prop :=
  | step_upload api_key text w :
      request_step w (snd (route_upload api_key text w))
  | step_readings api_key year month day w :
      request_step w (snd (route_readings api_key year month day w))
  | step_files api_key date w :
      request_step w (snd (route_files api_key date w)).

(** The worlds the service can be in: it starts on an empty table. *)
Inductive reachable : World -> Prop :=
  | reachable_init clk fs : reachable (mk_world [] clk fs)
  | reachable_step w w' :
      reachable w -> request_step w w' -> reachable w'.

End Vocabulary.

(** *** Rows that were not quoted

    The reader on text without quote characters, seen from outside: what
    it has consumed of the record it is reading. *)

Fixpoint only_newlines (s : string) : bool :=
  match s with
  | EmptyString => true
  | String c s' => Csv.is_newline c && only_newlines s'
  end.

(** The text of the current record read so far, line terminators apart. *)
Definition consumed (r : Csv.ReaderObj) : string :=
  match Csv.state r with
  | Csv.START_FIELD | Csv.IN_FIELD =>
      PyStr.join "," (Csv.fields r ++ [Csv.field r])
  | Csv.EAT_CRNL => PyStr.join "," (Csv.fields r)
  | _ => EmptyString
  end.

(** The reader is outside quoted fields, and holds nothing before the
    first character of a record. *)
Definition plain (r : Csv.ReaderObj) : Prop :=
  match Csv.state r with
  | Csv.START_RECORD => Csv.fields r = [] /\ Csv.field r = EmptyString
  | Csv.START_FIELD | Csv.IN_FIELD | Csv.EAT_CRNL => True
  | _ => False
  end.

(** A line of the payload is a row as the reader returned it, verbatim:
    the fields with their commas, followed by the line terminator. *)
Definition verbatim_row (line : string) (row : list string) : Prop :=
  exists terminator,
    line = PyStr.join "," row +:+ terminator
    /\ only_newlines terminator = true.

(** ** Worlds and requests to run *)

Section RunDefinitions.

Local Instance run_env : Env := example_env ticking_clock.

Definition the_key : string := "your-api-key-here".

Definition one : DecimalFloat.t := DecimalFloat.mk false 1 EmptyString.

(** A stored reading with the given id and timestamp. *)
Definition stored (name : string) (t : datetime) : DroneReading :=
  mk_reading name one one one t (Some "1.0,1.0,1.0").

Definition empty_world : World := mk_world [] 0%nat ∅.

Definition day_file : string :=
  "1.0,2.0,50,2024-03-15T10:00:00" +:+ LF_s +:+ "3.0,4.0,75,noon" +:+ LF_s.

Definition world_with_file : World :=
  mk_world [] 0%nat {[ "data/2024-03-15.csv" := day_file ]}.

(** Readings around the end of a day and of a year. *)
Definition end_of_day_world : World :=
  mk_world [stored "a" (mk_datetime 2024 3 15 23 59 58 0);
            stored "b" (mk_datetime 2024 3 15 23 59 59 0);
            stored "c" (mk_datetime 2024 3 16 0 0 0 0)]
           0%nat ∅.

Definition end_of_year_world : World :=
  mk_world [stored "a" (mk_datetime 2024 12 31 23 59 59 999999);
            stored "b" (mk_datetime 2025 1 1 0 0 0 0)] 0%nat ∅.

(** The payload of the scenario of the specification, and its rows. *)
Definition scenario_payload : string :=
  "1.0,2.0,50" +:+ LF_s +:+ "bad,row" +:+ LF_s +:+ "3.0,4.0,75".

Definition scenario_rows : list (list string) :=
  [["1.0"; "2.0"; "50"]; ["bad"; "row"]; ["3.0"; "4.0"; "75"]].

(** A numeric row, then a line with a carriage return in its middle. *)
Definition stray_cr_payload : string :=
  "1.0,2.0,50" +:+ LF_s +:+ "4,5" +:+ CR_s +:+ "6".

(** One row whose first field is written in quotes. *)
Definition quoted_payload : string :=
  QUOTE_s +:+ "1.0" +:+ QUOTE_s +:+ ",2.0,3.0".

Definition uploaded_world : World :=
  snd (route_upload the_key "1.0,2.0,50" empty_world).

End RunDefinitions.

(** ** Start-up configuration: the database URL *)

Module Config.

(** [s.startswith(prefix)]. *)
Definition startswith (s prefix : string) : bool := String.prefix prefix s.

Fixpoint drop (n : nat) (s : string) : string :=
  match n, s with
  | O, _ => s
  | S n', String _ s' => drop n' s'
  | S _, EmptyString => EmptyString
  end.

(** [s.replace(old, new, 1)]: the leftmost occurrence of [old], if there
    is one, is replaced. *)
Fixpoint replace_first (old new s : string) : string :=
  if String.prefix old s then new +:+ drop (String.length old) s
  else match s with
       | EmptyString => EmptyString
       | String c s' => String c (replace_first old new s')
       end.

(** The module-level code that follows [os.getenv("DATABASE_URL")]: a
    missing or empty value raises [ValueError]; the two PostgreSQL schemes
    are rewritten to the scheme of the async driver. *)
Definition normalize_database_url (DATABASE_URL : option string)
  : raising string :=
  match DATABASE_URL with
  | None => inl ValueError
  | Some EmptyString => inl ValueError
  | Some url =>
      if startswith url "postgres://"
      then inr (replace_first "postgres://" "postgresql+asyncpg://" url)
      else if startswith url "postgresql://"
      then inr (replace_first "postgresql://" "postgresql+asyncpg://" url)
      else inr url
  end.

End Config.

(** ** More vocabulary *)

(** The text of a line up to its first line terminator. *)
Fixpoint line_body (line : string) : string :=
  match line with
  | EmptyString => EmptyString
  | String c line' =>
      if Csv.is_newline c then EmptyString else String c (line_body line')
  end.

(** What follows the text of a line. *)
Fixpoint line_end (line : string) : string :=
  match line with
  | EmptyString => EmptyString
  | String c line' => if Csv.is_newline c then line else line_end line'
  end.

(** A line ends properly: after its first line terminator character come
    only line terminator characters. *)
Definition tidy_line (line : string) : bool := only_newlines (line_end line).

(** The row that a text without quotes stands for: the text split on
    commas; an empty text is a row without fields. *)
Definition row_of_body (body : string) : list string :=
  match body with
  | EmptyString => []
  | _ => PyStr.split PyStr.COMMA body
  end.

Definition row_of_line (line : string) : list string :=
  row_of_body (line_body line).

(** The reader has read the text [pre] of a line, without quotes or line
    terminators: the fields it holds are the split of [pre]. *)
Definition reading_line (r : Csv.ReaderObj) (pre : string) : Prop :=
  (String.length (Csv.field r) <= String.length pre)%nat
  /\ match Csv.state r with
     | Csv.START_RECORD =>
         pre = EmptyString /\ Csv.fields r = []
         /\ Csv.field r = EmptyString
     | Csv.START_FIELD | Csv.IN_FIELD =>
         pre <> EmptyString
         /\ PyStr.split PyStr.COMMA pre = Csv.fields r ++ [Csv.field r]
     | _ => False
     end.

(** A payload of plain lines: no quote character, every line ends properly
    and no line is longer than the field limit of the reader. *)
Definition plain_payload (text : string) : Prop :=
  PyStr.mem PyStr.QUOTE text = false
  /\ Forall (λ line, tidy_line line = true
                     /\ (N.of_nat (String.length line) <= Csv.field_limit)%N)
            (Csv.StringIO text).

(** A timestamp that is a [datetime]: its fields are ones the constructor
    accepts. *)
Definition is_datetime (t : datetime) : Prop :=
  Datetime.new (dt_year t) (dt_month t) (dt_day t) (dt_hour t)
               (dt_minute t) (dt_second t) (dt_microsecond t) = inr t.

(** ** More worlds and requests to run *)

Section MoreRunDefinitions.

Local Existing Instance run_env.

(** The second reading that the upload of the scenario stores. *)
Definition second_scenario_reading : DroneReading :=
  mk_reading "1710504000.000001_3.0_4.0_2"
             (DecimalFloat.mk false 3 EmptyString)
             (DecimalFloat.mk false 4 EmptyString)
             (DecimalFloat.mk false 75 EmptyString)
             (mk_datetime 2024 3 15 12 0 0 1)
             (Some "3.0,4.0,75").

(** A file that ends in two line feeds. *)
Definition blank_line_file : string :=
  "1.0,2.0,50,2024-03-15T10:00:00" +:+ LF_s +:+ LF_s.

Definition world_with_blank_line : World :=
  mk_world [] 0%nat {[ "data/2024-03-16.csv" := blank_line_file ]}.

End MoreRunDefinitions.

(** * Properties *)

(** ** The library models on small inputs *)

Example split_ex : PyStr.split PyStr.COMMA "1.0,2.0,,50" = ["1.0"; "2.0"; EmptyString; "50"].
Proof. reflexivity. Qed.

Example split_empty_ex : PyStr.split PyStr.COMMA EmptyString = [EmptyString].
Proof. reflexivity. Qed.

Example splitlines_ex :
  PyStr.splitlines (String "a" (String PyStr.CR (String PyStr.LF
     (String "b" (String PyStr.LF (String PyStr.LF (String "c" (String PyStr.CR EmptyString))))))))
  = ["a"; "b"; EmptyString; "c"].
Proof. reflexivity. Qed.

Example strip_ex : PyStr.strip "  1,2 ,x  " = "1,2 ,x".
Proof. reflexivity. Qed.

Example of_nat_ex : PyStr.of_nat 0 = "0" /\ PyStr.of_nat 1203 = "1203".
Proof. split; reflexivity. Qed.

Example isoformat_ex :
  Datetime.isoformat (mk_datetime 24 1 2 3 4 5 7) = "0024-01-02T03:04:05.000007"
  /\ Datetime.isoformat (mk_datetime 2024 1 2 3 4 5 0) = "2024-01-02T03:04:05".
Proof. split; reflexivity. Qed.

Example datetime_new_ex :
  Datetime.of_date 2024 2 29 = inr (mk_datetime 2024 2 29 0 0 0 0)
  /\ Datetime.of_date 2023 2 29 = inl ValueError
  /\ Datetime.of_date 2024 13 1 = inl ValueError
  /\ Datetime.of_date 10000 1 1 = inl ValueError
  /\ Datetime.of_date (2 ^ 70) 1 1 = inl OverflowError.
Proof. repeat split; reflexivity. Qed.

Example csv_plain_ex :
  Csv.reader (Csv.StringIO ("1.0,2.0,50" +:+ LF_s +:+ "bad,row" +:+ LF_s +:+ "3.0,4.0,75"))
  = ([["1.0"; "2.0"; "50"]; ["bad"; "row"]; ["3.0"; "4.0"; "75"]], None).
Proof. vm_compute. reflexivity. Qed.

Example csv_blank_line_ex :
  Csv.reader (Csv.StringIO ("1,2,3" +:+ CR_s +:+ LF_s +:+ LF_s +:+ "a," +:+ LF_s))
  = ([["1"; "2"; "3"]; []; ["a"; EmptyString]], None).
Proof. vm_compute. reflexivity. Qed.

Example csv_quoted_ex :
  Csv.reader (Csv.StringIO (QUOTE_s +:+ "a" +:+ QUOTE_s +:+ QUOTE_s +:+ "b"
                            +:+ LF_s +:+ "c" +:+ QUOTE_s +:+ ",d"))
  = ([["a" +:+ QUOTE_s +:+ "b" +:+ LF_s +:+ "c"; "d"]], None).
Proof. vm_compute. reflexivity. Qed.

Example csv_unterminated_quote_ex :
  Csv.reader (Csv.StringIO ("a," +:+ QUOTE_s)) = ([["a"; EmptyString]], None).
Proof. vm_compute. reflexivity. Qed.

Example csv_lone_cr_ex :
  Csv.reader (Csv.StringIO ("1,2,3" +:+ LF_s +:+ "4" +:+ CR_s +:+ "5"))
  = ([["1"; "2"; "3"]], Some CsvError).
Proof. vm_compute. reflexivity. Qed.

Example get_api_keys_ex :
  get_api_keys "k1, k2 ,k1" = ({[ "k1"; "k2" ]} : gset string).
Proof. vm_compute. reflexivity. Qed.

(** ** Order of timestamps *)

Module DatetimeFacts.
Import Datetime.

Lemma cmp_tuple_refl a : cmp_tuple a a = Eq.
Proof.
  induction a as [|x a IH]; simpl; [reflexivity|].
  now rewrite Z.compare_refl.
Qed.

Lemma cmp_tuple_antisym a b : cmp_tuple b a = CompOpp (cmp_tuple a b).
Proof.
  revert b; induction a as [|x a IH]; intros [|y b]; simpl; try reflexivity.
  rewrite (Z.compare_antisym x y).
  destruct (x ?= y); simpl; auto.
Qed.

Lemma cmp_tuple_le_trans a b c :
  cmp_tuple a b <> Gt -> cmp_tuple b c <> Gt -> cmp_tuple a c <> Gt.
Proof.
  revert b c; induction a as [|x a IH]; intros [|y b] [|z c]; simpl;
    try congruence.
  destruct (Z.compare_spec x y), (Z.compare_spec y z), (Z.compare_spec x z);
    subst; try lia; try congruence; eauto.
Qed.

Lemma ltb_irrefl t : ltb t t = false.
Proof. unfold ltb, cmp. now rewrite cmp_tuple_refl. Qed.

Lemma leb_spec a b : leb a b = true <-> cmp a b <> Gt.
Proof.
  unfold leb, ltb, cmp. rewrite (cmp_tuple_antisym (to_tuple a) (to_tuple b)).
  destruct (cmp_tuple (to_tuple a) (to_tuple b)); simpl; split; congruence.
Qed.

Lemma leb_refl t : leb t t = true.
Proof. unfold leb. now rewrite ltb_irrefl. Qed.

Lemma leb_trans a b c : leb a b = true -> leb b c = true -> leb a c = true.
Proof. rewrite !leb_spec. apply cmp_tuple_le_trans. Qed.

Lemma leb_total a b : leb a b = true \/ leb b a = true.
Proof.
  rewrite !leb_spec. unfold cmp.
  rewrite (cmp_tuple_antisym (to_tuple a) (to_tuple b)).
  destruct (cmp_tuple (to_tuple a) (to_tuple b)); simpl;
    [left|left|right]; congruence.
Qed.

Lemma ltb_leb a b : ltb a b = true -> leb a b = true.
Proof.
  intros H. apply leb_spec. unfold ltb in H.
  destruct (cmp a b); congruence.
Qed.

(** A timestamp that is not before [b] is not before anything up to [b]. *)
Lemma ltb_false_mono a b t :
  leb a b = true -> ltb t b = false -> ltb t a = false.
Proof.
  intros Hab Htb. destruct (ltb t a) eqn:Hta; [|reflexivity].
  assert (Hbt : leb b t = true) by (unfold leb; now rewrite Htb).
  pose proof (leb_trans _ _ _ Hab Hbt) as Hat.
  unfold leb in Hat. rewrite Hta in Hat. discriminate.
Qed.

Lemma days_in_month_ge_28 year month :
  1 <= month <= 12 -> 28 <= days_in_month year month <= 31.
Proof.
  intros Hm. unfold days_in_month.
  assert (month = 1 \/ month = 2 \/ month = 3 \/ month = 4 \/ month = 5
          \/ month = 6 \/ month = 7 \/ month = 8 \/ month = 9
          \/ month = 10 \/ month = 11 \/ month = 12) as Hc by lia.
  repeat (destruct Hc as [->|Hc]); try subst month;
    try (destruct (is_leap year)); simpl; lia.
Qed.

Lemma fits_c_int_small z : -10000 <= z <= 1000000 -> fits_c_int z = true.
Proof.
  intros Hz. unfold fits_c_int.
  apply andb_true_iff; split; [apply Z.leb_le | apply Z.ltb_lt]; lia.
Qed.

Lemma between_true lo z hi : lo <= z <= hi -> between lo z hi = true.
Proof.
  intros Hz. unfold between.
  apply andb_true_iff; split; apply Z.leb_le; lia.
Qed.

Lemma between_false lo z hi : ~ (lo <= z <= hi) -> between lo z hi = false.
Proof.
  intros Hz. unfold between. apply andb_false_iff.
  destruct (Z.leb_spec lo z); [right|left; reflexivity].
  apply Z.leb_gt. lia.
Qed.

(** The constructor accepts exactly the calendar dates and the times of
    day. *)
Lemma new_valid year month day hour minute second microsecond :
  MINYEAR <= year <= MAXYEAR -> 1 <= month <= 12 ->
  1 <= day <= days_in_month year month ->
  0 <= hour <= 23 -> 0 <= minute <= 59 -> 0 <= second <= 59 ->
  0 <= microsecond <= 999999 ->
  new year month day hour minute second microsecond
  = inr (mk_datetime year month day hour minute second microsecond).
Proof.
  intros Hy Hm Hd Hh Hmi Hs Hus. unfold new.
  pose proof (days_in_month_ge_28 year month Hm) as Hdim.
  unfold MINYEAR, MAXYEAR in Hy.
  cbn [forallb].
  rewrite !fits_c_int_small by lia. cbn [andb negb].
  rewrite !between_true by (unfold MINYEAR, MAXYEAR; lia).
  reflexivity.
Qed.

Lemma new_bad_month year month day hour minute second microsecond :
  ~ (1 <= month <= 12) ->
  exists e, new year month day hour minute second microsecond = inl e.
Proof.
  intros Hm. unfold new.
  destruct (negb (forallb _ _)); [eauto|].
  destruct (negb (between MINYEAR year MAXYEAR)); [eauto|].
  rewrite (between_false 1 month 12 Hm). simpl. eauto.
Qed.

Lemma new_bad_day year month day hour minute second microsecond :
  ~ (1 <= day <= days_in_month year month) ->
  exists e, new year month day hour minute second microsecond = inl e.
Proof.
  intros Hd. unfold new.
  destruct (negb (forallb _ _)); [eauto|].
  destruct (negb (between MINYEAR year MAXYEAR)); [eauto|].
  destruct (negb (between 1 month 12)); [eauto|].
  rewrite (between_false _ _ _ Hd). simpl. eauto.
Qed.

End DatetimeFacts.

(** ** [GET /readings] *)

Section QueryProperties.

Context {env : Env}.

Global Instance newest_first_total : Total newest_first.
Proof.
  intros a b. unfold newest_first.
  destruct (DatetimeFacts.leb_total (timestamp b) (timestamp a)) as [H|H];
    [left|right]; now apply Is_true_true.
Qed.

Global Instance newest_first_trans : Transitive newest_first.
Proof.
  intros a b c Hab Hbc. unfold newest_first in *.
  apply Is_true_true. apply Is_true_true in Hab, Hbc.
  eapply DatetimeFacts.leb_trans; eauto.
Qed.

Lemma execute_sorted window table :
  StronglySorted newest_first (execute window table).
Proof. unfold execute, order_by_timestamp_desc. apply StronglySorted_merge_sort; apply _. Qed.

Lemma execute_perm window table :
  execute window table ≡ₚ filter (λ r, where_clause window r) table.
Proof. unfold execute, order_by_timestamp_desc. apply merge_sort_Permutation. Qed.

Lemma execute_elem_of window table r :
  r ∈ execute window table <-> r ∈ table /\ where_clause window r = true.
Proof.
  rewrite execute_perm, list_elem_of_filter, Is_true_true. tauto.
Qed.

(** Once the window is built, the handler returns the selected rows,
    serialised in the order of the query. *)
Lemma get_readings_returns year month day w window :
  date_filter year month day = inr window ->
  get_readings year month day w
  = (Return (map to_dict (execute window (db w))), w).
Proof.
  intros Hf. unfold get_readings. rewrite Hf.
  destruct (execute window (db w)); reflexivity.
Qed.

Lemma get_readings_raises year month day w e :
  date_filter year month day = inl e ->
  get_readings year month day w = (Uncaught e, w).
Proof. intros Hf. unfold get_readings. now rewrite Hf. Qed.

Lemma date_filter_none month day : date_filter None month day = inr None.
Proof. reflexivity. Qed.

Lemma date_filter_day year month day :
  valid_date year month day ->
  date_filter (Some year) (Some month) (Some day)
  = inr (Some (midnight year month day,
               mk_datetime year month day 23 59 59 0)).
Proof.
  intros (Hy & Hm & Hd). unfold date_filter, Datetime.of_date.
  rewrite !DatetimeFacts.new_valid by lia. reflexivity.
Qed.

Lemma date_filter_month year month :
  Datetime.MINYEAR <= year <= Datetime.MAXYEAR -> 1 <= month <= 12 ->
  (month = 12 -> year < Datetime.MAXYEAR) ->
  date_filter (Some year) (Some month) None
  = inr (Some (first_of_month year month, first_of_next_month year month)).
Proof.
  intros Hy Hm Hroll. unfold date_filter, first_of_next_month, first_of_month.
  unfold Datetime.MINYEAR, Datetime.MAXYEAR in *.
  destruct (Z.eqb_spec month 12) as [->|Hne]; unfold Datetime.of_date.
  - specialize (Hroll eq_refl).
    pose proof (DatetimeFacts.days_in_month_ge_28 year 12 Hm).
    pose proof (DatetimeFacts.days_in_month_ge_28 (year + 1) 1 ltac:(lia)).
    rewrite !DatetimeFacts.new_valid
      by (unfold Datetime.MINYEAR, Datetime.MAXYEAR; lia).
    reflexivity.
  - assert (1 <= month + 1 <= 12) by lia.
    pose proof (DatetimeFacts.days_in_month_ge_28 year month Hm).
    pose proof (DatetimeFacts.days_in_month_ge_28 year (month + 1) H).
    rewrite !DatetimeFacts.new_valid
      by (unfold Datetime.MINYEAR, Datetime.MAXYEAR; lia).
    reflexivity.
Qed.

Lemma in_window_half_open a b r :
  in_window a b r = in_half_open a b (timestamp r).
Proof. reflexivity. Qed.

(** With the window of a day query, nothing stamped at or after
    23:59:59 of that day is selected. *)
Lemma day_window_excludes_from_last_second year month day r :
  Datetime.leb (mk_datetime year month day 23 59 59 0) (timestamp r) = true ->
  where_clause (Some (midnight year month day,
                      mk_datetime year month day 23 59 59 0)) r = false.
Proof.
  intros Hle. unfold where_clause, in_window.
  unfold Datetime.leb in Hle. apply negb_true_iff in Hle.
  rewrite Hle. apply andb_false_r.
Qed.

(** Whatever a day query returns is stamped strictly before 23:59:59 of
    that day. *)
Lemma day_query_stops_before_last_second year month day w :
  valid_date year month day ->
  exists readings,
    get_readings (Some year) (Some month) (Some day) w
    = (Return (map to_dict readings), w)
    /\ forall r, r ∈ readings ->
         Datetime.ltb (timestamp r) (mk_datetime year month day 23 59 59 0)
         = true.
Proof.
  intros Hvalid. pose proof (date_filter_day year month day Hvalid) as Hf.
  eexists. split; [apply (get_readings_returns _ _ _ _ _ Hf)|].
  intros r Hr. apply execute_elem_of in Hr as [_ Hsel].
  unfold where_clause, in_window in Hsel.
  now apply andb_true_iff in Hsel as [_ Hlt].
Qed.

(** C3: a query with a year and a month, and no day, returns exactly the
    readings stamped from the first of that month at midnight up to, and
    not including, the first of the next month at midnight; for December
    the upper bound is January 1 of the next year. *)
Theorem month_query_half_open_window (year month : Z) (w : World) :
  Datetime.MINYEAR <= year <= Datetime.MAXYEAR ->
  1 <= month <= 12 ->
  (month = 12 -> year < Datetime.MAXYEAR) ->
  exists readings,
    get_readings (Some year) (Some month) None w
    = (Return (map to_dict readings), w)
    /\ readings ≡ₚ
         filter (λ r, in_half_open (first_of_month year month)
                                   (first_of_next_month year month)
                                   (timestamp r)) (db w)
    /\ StronglySorted newest_first readings
    /\ (month = 12 ->
        first_of_next_month year month = midnight (year + 1) 1 1).
Proof.
  intros Hy Hm Hroll.
  pose proof (date_filter_month year month Hy Hm Hroll) as Hf.
  exists (execute (Some (first_of_month year month,
                         first_of_next_month year month)) (db w)).
  split; [now apply get_readings_returns|].
  split; [apply execute_perm|].
  split; [apply execute_sorted|].
  intros ->. reflexivity.
Qed.

(** C4: whenever the query runs (without a year it always does), the
    returned readings are the selected ones, newest first; when no
    reading is selected the result is the empty list. *)
Theorem readings_newest_first (year month day : option Z) (w : World)
    (window : option (datetime * datetime)) :
  date_filter year month day = inr window ->
  exists readings,
    get_readings year month day w = (Return (map to_dict readings), w)
    /\ StronglySorted newest_first readings
    /\ readings ≡ₚ filter (λ r, where_clause window r) (db w)
    /\ ((forall r, r ∈ db w -> where_clause window r = false) ->
        get_readings year month day w = (Return [], w)).
Proof.
  intros Hf. exists (execute window (db w)).
  split; [now apply get_readings_returns|].
  split; [apply execute_sorted|].
  split; [apply execute_perm|].
  intros Hnone. rewrite (get_readings_returns _ _ _ _ _ Hf).
  assert (execute window (db w) = []) as ->; [|reflexivity].
  apply elem_of_nil_inv. intros r Hr.
  apply execute_elem_of in Hr as [Hin Hsel].
  rewrite (Hnone r Hin) in Hsel. discriminate.
Qed.

(** Without a year the date filter is empty, whatever else is sent. *)
Lemma unfiltered_query_returns_all month day w :
  exists readings,
    get_readings None month day w = (Return (map to_dict readings), w)
    /\ StronglySorted newest_first readings /\ readings ≡ₚ db w.
Proof.
  exists (execute None (db w)).
  split; [now apply get_readings_returns|].
  split; [apply execute_sorted|].
  rewrite execute_perm. induction (db w) as [|r l IH]; [reflexivity|].
  rewrite filter_cons_True by exact I. now rewrite IH.
Qed.

(** C10: a query with a year and a month outside 1..12, or with a day
    outside the days of its month, makes the [datetime] constructor
    raise; nothing catches the exception, so the answer is a server
    error (status 500), neither an empty list nor a client error. *)
Theorem invalid_calendar_date_is_server_error
    (api_key : string) (year month : Z) (day : option Z) (w : World) :
  api_key ∈ API_KEYS ->
  (~ (1 <= month <= 12)
   \/ exists d, day = Some d
                /\ ~ (1 <= d <= Datetime.days_in_month year month)) ->
  exists e,
    route_readings api_key (Some year) (Some month) day w = (Uncaught e, w)
    /\ status_of (fst (route_readings api_key (Some year) (Some month) day w))
       = 500.
Proof.
  intros Hkey Hbad.
  assert (exists e, date_filter (Some year) (Some month) day = inl e)
    as [e He].
  { unfold date_filter, Datetime.of_date.
    destruct Hbad as [Hm | (d & -> & Hd)].
    - destruct day as [d|].
      + destruct (DatetimeFacts.new_bad_month year month d 0 0 0 0 Hm)
          as [e ->]. simpl. eauto.
      + destruct (month =? 12);
          destruct (DatetimeFacts.new_bad_month year month 1 0 0 0 0 Hm)
            as [e ->]; simpl; eauto.
    - destruct (DatetimeFacts.new_bad_day year month d 0 0 0 0 Hd)
        as [e ->]. simpl. eauto. }
  exists e.
  assert (route_readings api_key (Some year) (Some month) day w
          = (Uncaught e, w)) as Hr.
  { unfold route_readings, depends_verify_api_key, verify_api_key.
    rewrite bool_decide_eq_true_2 by assumption. simpl.
    now apply get_readings_raises. }
  rewrite Hr. split; reflexivity.
Qed.

End QueryProperties.

(** ** Strings *)

Module PyStrFacts.
Import PyStr.

Lemma append_cons c s t : String c s +:+ t = String c (s +:+ t).
Proof. reflexivity. Qed.

Lemma append_nil_l s : EmptyString +:+ s = s.
Proof. reflexivity. Qed.

Lemma append_nil_r s : s +:+ EmptyString = s.
Proof.
  induction s as [|c s IH]; [reflexivity|].
  now rewrite append_cons, IH.
Qed.

Lemma append_assoc s t u : (s +:+ t) +:+ u = s +:+ (t +:+ u).
Proof.
  induction s as [|c s IH]; [reflexivity|].
  now rewrite !append_cons, IH.
Qed.

Lemma mem_append c s t : mem c (s +:+ t) = mem c s || mem c t.
Proof.
  induction s as [|c' s IH]; [reflexivity|].
  rewrite append_cons. simpl. rewrite IH. now rewrite orb_assoc.
Qed.

Lemma mem_head c s : mem c (String c s) = true.
Proof. simpl. now rewrite Ascii.eqb_refl. Qed.

Lemma mem_string_of_uint d :
  mem UNDERSCORE (NilEmpty.string_of_uint d) = false.
Proof. induction d; simpl; auto. Qed.

(** The decimal representation of an index has no underscore. *)
Lemma mem_underscore_of_nat n : mem UNDERSCORE (of_nat n) = false.
Proof. apply mem_string_of_uint. Qed.

Lemma of_nat_inj n m : of_nat n = of_nat m -> n = m.
Proof.
  unfold of_nat. intros H.
  apply DecimalNat.Unsigned.to_uint_inj.
  apply (f_equal NilEmpty.uint_of_string) in H.
  rewrite !NilEmpty.usu in H. congruence.
Qed.

(** What follows the last underscore of a string determines it: two
    strings that end in an underscore and an underscore-free tail are
    equal only if the tails are. *)
Lemma last_segment_inj p q s t :
  mem UNDERSCORE s = false -> mem UNDERSCORE t = false ->
  p +:+ String UNDERSCORE s = q +:+ String UNDERSCORE t -> s = t.
Proof.
  intros Hs Ht. revert q.
  induction p as [|c p IH]; intros [|c' q] Heq;
    rewrite ?append_cons, ?append_nil_l in Heq.
  - congruence.
  - injection Heq as <- ->.
    rewrite mem_append, mem_head, orb_true_r in Hs. discriminate.
  - injection Heq as -> <-.
    rewrite mem_append, mem_head, orb_true_r in Ht. discriminate.
  - injection Heq as _ Heq. eauto.
Qed.

Lemma mem_cons c c' s : mem c (String c' s) = Ascii.eqb c c' || mem c s.
Proof. reflexivity. Qed.

Lemma rev_app_append s t : String.rev_app s t = String.rev s +:+ t.
Proof.
  unfold String.rev. revert t.
  induction s as [|c s IH]; intros t; [reflexivity|].
  cbn [String.rev_app]. rewrite (IH (String c t)), (IH (String c EmptyString)).
  now rewrite append_assoc.
Qed.

Lemma rev_cons c s : String.rev (String c s) = String.rev s +:+ String c EmptyString.
Proof. unfold String.rev at 1. cbn [String.rev_app]. apply rev_app_append. Qed.

Lemma mem_rev c s : mem c (String.rev s) = mem c s.
Proof.
  induction s as [|c' s IH]; [reflexivity|].
  rewrite rev_cons, mem_append, IH, !mem_cons. cbn [mem].
  rewrite orb_false_r. apply orb_comm.
Qed.

Lemma concat_empty_cons x l :
  String.concat EmptyString (x :: l) = x +:+ String.concat EmptyString l.
Proof.
  destruct l as [|y l]; [symmetry; apply append_nil_r|reflexivity].
Qed.

End PyStrFacts.


(** ** [csv.reader] on text without quote characters *)

Module CsvFacts.
Import Csv PyStr PyStrFacts.

Lemma join_snoc sep l x :
  l <> [] -> join sep (l ++ [x]) = join sep l +:+ sep +:+ x.
Proof.
  induction l as [|y l IH]; [congruence|]. intros _.
  destruct l as [|z l]; [reflexivity|].
  change (join sep ((y :: z :: l) ++ [x]))
    with (y +:+ sep +:+ join sep ((z :: l) ++ [x])).
  rewrite IH by congruence.
  change (join sep (y :: z :: l)) with (y +:+ sep +:+ join sep (z :: l)).
  now rewrite !append_assoc.
Qed.

Lemma join_snoc_append sep l f s :
  join sep (l ++ [f +:+ s]) = join sep (l ++ [f]) +:+ s.
Proof.
  destruct l as [|y l]; [reflexivity|].
  rewrite !join_snoc by congruence. now rewrite !append_assoc.
Qed.

Lemma parse_add_char_inr r c r' :
  parse_add_char r c = inr r' ->
  r' = mk_reader (state r) (field r +:+ String c EmptyString) (fields r).
Proof.
  unfold parse_add_char. destruct (_ <=? _)%N; congruence.
Qed.

Lemma step_plain r c r' :
  plain r -> Ascii.eqb c QUOTE = false ->
  parse_process_char r (Chr c) = inr r' ->
  plain r' /\ state r' <> START_RECORD /\
  if is_newline c
  then state r' = EAT_CRNL /\ consumed r' = consumed r
  else state r' <> EAT_CRNL /\ state r <> EAT_CRNL
       /\ consumed r' = consumed r +:+ String c EmptyString.
Proof.
  destruct r as [st f fs]. intros Hplain Hq.
  unfold parse_process_char, start_field.
  destruct st; try contradiction; cbn [state];
    [destruct Hplain as [Hfs Hf]; cbn [fields field] in Hfs, Hf; subst fs f | ..];
    destruct (is_newline c) eqn:Hnl; rewrite ?Hq;
    try (destruct (Ascii.eqb_spec c COMMA) as [->|Hc]);
    try (destruct (parse_add_char _ c) as [e|r1] eqn:Hadd;
         [discriminate|]; apply parse_add_char_inr in Hadd; subst r1;
         cbn [bind_raising]);
    intros [= <-];
    unfold plain, consumed; cbn [set_state parse_save_field state field fields];
    rewrite ?Hnl;
    repeat split; try discriminate;
    try (rewrite join_snoc by (destruct fs; discriminate));
    rewrite ?join_snoc_append; reflexivity.
Qed.

Lemma eol_plain r :
  plain r ->
  exists r', parse_process_char r EOL = inr r'
             /\ at_start_record r' = true
             /\ join "," (fields r') = consumed r.
Proof.
  destruct r as [st f fs]. unfold plain, consumed, parse_process_char, start_field.
  cbn [state field fields].
  destruct st; try contradiction; intros Hplain;
    eexists; (split; [reflexivity|]); split; try reflexivity.
  destruct Hplain as [Hfs _]. simpl in *. now subst.
Qed.

Lemma feed_line_plain line : forall r r',
  plain r -> mem QUOTE line = false ->
  feed_line r line = inr r' ->
  at_start_record r' = true
  /\ exists body term,
       line = body +:+ term /\ only_newlines term = true
       /\ join "," (fields r') = consumed r +:+ body
       /\ (state r = EAT_CRNL -> body = EmptyString).
Proof.
  induction line as [|c line IH]; intros r r' Hplain Hq Hfeed.
  - simpl in Hfeed. destruct (eol_plain r Hplain) as (r1 & Heol & Hst & Hjoin).
    rewrite Heol in Hfeed. injection Hfeed as <-.
    split; [exact Hst|]. exists EmptyString, EmptyString.
    repeat split; rewrite ?append_nil_r; auto.
  - change (mem QUOTE (String c line))
      with (Ascii.eqb QUOTE c || mem QUOTE line) in Hq.
    apply orb_false_iff in Hq as [Hqc Hq].
    rewrite Ascii.eqb_sym in Hqc.
    simpl in Hfeed.
    destruct (parse_process_char r (Chr c)) as [e|r1] eqn:Hstep; [discriminate|].
    simpl in Hfeed.
    destruct (step_plain r c r1 Hplain Hqc Hstep) as (Hplain1 & Hns & Hcase).
    destruct (IH r1 r' Hplain1 Hq Hfeed) as (Hst & body & term & Hline & Hterm & Hjoin & Hcr).
    split; [exact Hst|].
    destruct (is_newline c) eqn:Hnl.
    + destruct Hcase as [Hs1 Hcons]. specialize (Hcr Hs1). subst body.
      exists EmptyString, (String c term).
      rewrite append_nil_l in Hline. subst line.
      rewrite Hjoin, Hcons. simpl. rewrite Hnl, Hterm.
      repeat split; rewrite ?append_nil_r; auto.
    + destruct Hcase as (Hs1 & Hs & Hcons).
      exists (String c body), term. subst line.
      rewrite Hjoin, Hcons, append_assoc. repeat split; auto. congruence.
Qed.

Lemma iter_rows_plain lines : forall rows err,
  Forall (fun line => mem QUOTE line = false) lines ->
  iter_rows parse_reset lines = (rows, err) ->
  Forall2 verbatim_row (take (length rows) lines) rows.
Proof.
  induction lines as [|line rest IH]; intros rows err Hq Hiter.
  - simpl in Hiter. injection Hiter as <- <-. constructor.
  - apply Forall_cons in Hq as [Hq Hrest]. simpl in Hiter.
    destruct (feed_line parse_reset line) as [e|r'] eqn:Hfeed.
    { injection Hiter as <- <-. constructor. }
    destruct (feed_line_plain line parse_reset r' (conj eq_refl eq_refl) Hq Hfeed)
      as (Hst & body & term & Hline & Hterm & Hjoin & _).
    rewrite Hst in Hiter.
    destruct (iter_rows parse_reset rest) as [rows' e'] eqn:Hrec.
    injection Hiter as <- <-. simpl.
    constructor; [|eapply IH; eauto].
    exists term. rewrite Hjoin. split; [exact Hline | exact Hterm].
Qed.

Lemma StringIO_go_concat s : forall cur,
  String.concat EmptyString (StringIO_go cur s) = String.rev cur +:+ s.
Proof.
  induction s as [|c s IH]; intros cur.
  - destruct cur; [reflexivity|]. cbn [StringIO_go String.concat].
    symmetry. apply append_nil_r.
  - cbn [StringIO_go]. destruct (Ascii.eqb c LF).
    + rewrite concat_empty_cons, IH, rev_cons, append_assoc. reflexivity.
    + rewrite IH, rev_cons, append_assoc. reflexivity.
Qed.

(** The lines of a text are the text, cut after each line feed. *)
Lemma StringIO_concat text :
  String.concat EmptyString (StringIO text) = text.
Proof. unfold StringIO. now rewrite StringIO_go_concat. Qed.

Lemma StringIO_go_mem q s : forall cur,
  mem q cur = false -> mem q s = false ->
  Forall (fun line => mem q line = false) (StringIO_go cur s).
Proof.
  induction s as [|c s IH]; intros cur Hcur Hs.
  - destruct cur; constructor; [|constructor]. now rewrite mem_rev.
  - rewrite mem_cons in Hs. apply orb_false_iff in Hs as [Hc Hs].
    cbn [StringIO_go]. destruct (Ascii.eqb c LF).
    + constructor; [|now apply IH].
      now rewrite mem_rev, mem_cons, Hc, Hcur.
    + apply IH; [|exact Hs]. now rewrite mem_cons, Hc, Hcur.
Qed.

Lemma StringIO_mem q text :
  mem q text = false -> Forall (fun line => mem q line = false) (StringIO text).
Proof. intros H. now apply StringIO_go_mem. Qed.

(** Without quote characters every row the reader returns is one line of
    the text, verbatim, less its line terminator. *)
Lemma reader_plain text :
  mem QUOTE text = false ->
  Forall2 verbatim_row
          (take (length (fst (reader (StringIO text)))) (StringIO text))
          (fst (reader (StringIO text))).
Proof.
  intros Hq. unfold reader.
  destruct (iter_rows parse_reset (StringIO text)) as [rows err] eqn:Hiter.
  eapply iter_rows_plain; [apply StringIO_mem; exact Hq | exact Hiter].
Qed.

End CsvFacts.

(** ** [POST /upload] *)

Section UploadProperties.

Context {env : Env}.

Lemma make_id_tagged t lon lat idx :
  exists prefix,
    make_id t lon lat idx
    = prefix +:+ String PyStr.UNDERSCORE (PyStr.of_nat idx).
Proof.
  exists (str_of_float (posix_timestamp t) +:+ "_" +:+
          str_of_float lon +:+ "_" +:+ str_of_float lat).
  unfold make_id. rewrite !PyStrFacts.append_assoc. reflexivity.
Qed.

Lemma upload_loop_acc idx rows clk acc :
  upload_loop idx rows clk acc
  = (acc ++ fst (upload_loop idx rows clk []),
     snd (upload_loop idx rows clk [])).
Proof.
  revert idx clk acc.
  induction rows as [|row rest IH]; intros idx clk acc; simpl.
  - now rewrite app_nil_r.
  - destruct (negb (length row =? 3)%nat); [apply IH|].
    destruct (parse_floats row) as [[[lon lat] a]|]; [|apply IH].
    rewrite (IH _ _ (acc ++ _)), (IH _ _ [_]). simpl.
    now rewrite <- app_assoc.
Qed.

(** The loop keeps a row exactly when it is a numeric row. *)
Lemma kept_iff_numeric_row row :
  (if negb (length row =? 3)%nat then None else parse_floats row) = None
  <-> numeric_row row = false.
Proof.
  destruct row as [|f0 [|f1 [|f2 [|f3 row]]]]; simpl; try tauto.
  unfold parse_floats, numeric_row. cbn [nth].
  destruct (float_of_str f0) as [x0|], (float_of_str f1) as [x1|],
           (float_of_str f2) as [x2|];
    cbn; split; intros Hk; try reflexivity; discriminate Hk.
Qed.

(** One reading per numeric row, in the order of the rows; one clock
    reading per stored reading. *)
Lemma upload_loop_rows idx rows clk :
  Forall2 reading_of_row (filter (λ row, numeric_row row) rows)
          (fst (upload_loop idx rows clk []))
  /\ snd (upload_loop idx rows clk [])
     = (clk + length (filter (λ row, numeric_row row) rows))%nat.
Proof.
  revert idx clk. induction rows as [|row rest IH]; intros idx clk.
  - simpl. split; [constructor | lia].
  - pose proof (kept_iff_numeric_row row) as Hkept.
    cbn [upload_loop].
    destruct (negb (length row =? 3)%nat) eqn:Hlen.
    + rewrite filter_cons_False
        by (rewrite (proj1 Hkept eq_refl); exact (fun H => H)).
      apply IH.
    + destruct (parse_floats row) as [[[lon lat] a]|] eqn:Hp.
      * assert (numeric_row row = true) as Hnum.
        { destruct (numeric_row row); [reflexivity|].
          destruct Hkept as [_ Hk]. discriminate (Hk eq_refl). }
        rewrite filter_cons_True by (rewrite Hnum; exact I).
        rewrite upload_loop_acc. cbn [fst snd app].
        destruct (IH (S idx) (S clk)) as [IH1 IH2].
        split.
        -- constructor; [|exact IH1]. split; [exact Hp | reflexivity].
        -- rewrite IH2. simpl. lia.
      * rewrite filter_cons_False
          by (rewrite (proj1 Hkept eq_refl); exact (fun H => H)).
        apply IH.
Qed.

Lemma upload_loop_tagged idx rows clk :
  Forall (id_tagged idx (idx + length rows))
         (fst (upload_loop idx rows clk [])).
Proof.
  revert idx clk. induction rows as [|row rest IH]; intros idx clk.
  - constructor.
  - assert (Forall (id_tagged idx (idx + length (row :: rest)))
              (fst (upload_loop (S idx) rest clk []))) as Hskip.
    { eapply Forall_impl; [apply IH|].
      intros r (p & j & Hid & Hj). exists p, j. simpl. split; [exact Hid|lia]. }
    cbn [upload_loop].
    destruct (negb (length row =? 3)%nat); [exact Hskip|].
    destruct (parse_floats row) as [[[lon lat] a]|]; [|exact Hskip].
    rewrite upload_loop_acc. cbn [fst app].
    constructor.
    + destruct (make_id_tagged (utcnow clk) lon lat idx) as [p Hp].
      exists p, idx. simpl. split; [exact Hp | lia].
    + eapply Forall_impl; [apply (IH (S idx) (S clk))|].
      intros r (p & j & Hid & Hj). exists p, j. simpl. split; [exact Hid|lia].
Qed.

Lemma id_tagged_disjoint r r' lo mid hi :
  id_tagged lo mid r -> id_tagged mid hi r' -> id r <> id r'.
Proof.
  intros (p & j & Hid & Hj) (p' & j' & Hid' & Hj') Heq.
  rewrite Hid, Hid' in Heq.
  apply PyStrFacts.last_segment_inj in Heq;
    try apply PyStrFacts.mem_underscore_of_nat.
  apply PyStrFacts.of_nat_inj in Heq. lia.
Qed.

(** Within one batch the ids are pairwise distinct: they end in the
    positions of their rows, which differ. *)
Lemma upload_loop_ids_NoDup idx rows clk :
  NoDup (map id (fst (upload_loop idx rows clk []))).
Proof.
  revert idx clk. induction rows as [|row rest IH]; intros idx clk.
  - constructor.
  - cbn [upload_loop].
    destruct (negb (length row =? 3)%nat); [apply IH|].
    destruct (parse_floats row) as [[[lon lat] a]|]; [|apply IH].
    rewrite upload_loop_acc. cbn [fst app map].
    constructor; [|apply IH].
    intros Hin. apply list_elem_of_fmap in Hin as (r' & Heq & Hr').
    pose proof (upload_loop_tagged (S idx) rest (S clk)) as Htag.
    rewrite Forall_forall in Htag. specialize (Htag r' Hr').
    revert Heq. apply (id_tagged_disjoint _ r' idx (S idx) (S idx + length rest)).
    + destruct (make_id_tagged (utcnow clk) lon lat idx) as [p Hp].
      exists p, idx. simpl. split; [exact Hp | lia].
    + exact Htag.
Qed.

Lemma batch_ids_NoDup text w : NoDup (map id (batch text w)).
Proof. apply upload_loop_ids_NoDup. Qed.

End UploadProperties.

Section UploadTheorems.

Context {env : Env}.

Lemma commit_accepts table readings :
  NoDup (map id (table ++ readings)) ->
  commit table readings = inr (table ++ readings).
Proof. intros H. unfold commit. now rewrite bool_decide_eq_true_2. Qed.

Lemma commit_rejects table readings :
  ~ NoDup (map id (table ++ readings)) ->
  commit table readings = inl IntegrityError.
Proof. intros H. unfold commit. now rewrite bool_decide_eq_false_2. Qed.

Lemma commit_NoDup table readings table' :
  commit table readings = inr table' -> NoDup (map id table').
Proof.
  unfold commit. case_bool_decide as Hnd; [|discriminate].
  now intros [= <-].
Qed.

(** C2, amended: when the CSV reader reads the payload to its end and
    the insert respects the primary key, the upload stores exactly one
    reading per row with exactly three fields that all parse as floats,
    in the order of the rows, and answers with their number; the other
    rows are skipped.  When an id of the batch is already stored, the
    insert is rejected as a whole and the table is left as it was. *)
Theorem upload_stores_numeric_rows
    (text : string) (w : World) (rows : list (list string)) :
  Csv.reader (Csv.StringIO text) = (rows, None) ->
  (NoDup (map id (db w ++ batch text w)) ->
   exists readings,
     upload_data text w
     = (Return (upload_message
                  (length (filter (λ row, numeric_row row) rows))),
        mk_world (db w ++ readings)
                 (clock_reads w + length readings) (files w))
     /\ Forall2 reading_of_row (filter (λ row, numeric_row row) rows)
                readings)
  /\ (~ NoDup (map id (db w ++ batch text w)) ->
      exists clk,
        upload_data text w
        = (Uncaught IntegrityError, mk_world (db w) clk (files w))).
Proof.
  intros Hcsv. unfold batch, upload_data. rewrite Hcsv. cbn [fst].
  destruct (upload_loop_rows 0 rows (clock_reads w)) as [Hrows Hclk].
  destruct (upload_loop 0 rows (clock_reads w) []) as [readings clk].
  cbn [fst snd] in *. split.
  - intros Hnd. exists readings. rewrite (commit_accepts _ _ Hnd).
    pose proof (Forall2_length _ _ _ Hrows) as Hlen.
    rewrite Hclk, Hlen. split; [reflexivity | exact Hrows].
  - intros Hdup. exists clk. now rewrite (commit_rejects _ _ Hdup).
Qed.

(** Whatever the payload, an upload leaves a table without repeated ids
    when it found one. *)
Lemma upload_data_preserves_NoDup text w :
  NoDup (map id (db w)) -> NoDup (map id (db (snd (upload_data text w)))).
Proof.
  intros Hnd. unfold upload_data.
  destruct (Csv.reader (Csv.StringIO text)) as [rows err].
  destruct (upload_loop 0 rows (clock_reads w) []) as [readings clk].
  destruct err as [e|]; [exact Hnd|].
  destruct (commit (db w) readings) as [e|table] eqn:Hc; [exact Hnd|].
  cbn. eapply commit_NoDup; eauto.
Qed.

Lemma depends_verify_api_key_world {A} api_key
    (handler : World -> outcome A * World) w :
  snd (depends_verify_api_key api_key handler w) = w
  \/ depends_verify_api_key api_key handler w = handler w.
Proof.
  unfold depends_verify_api_key.
  destruct (verify_api_key api_key); auto.
Qed.

Lemma get_readings_world year month day w :
  snd (get_readings year month day w) = w.
Proof.
  unfold get_readings. destruct (date_filter year month day); [reflexivity|].
  destruct (execute _ _); reflexivity.
Qed.

Lemma get_file_data_world date w : snd (get_file_data date w) = w.
Proof.
  unfold get_file_data. destruct (files w !! file_path date); [|reflexivity].
  destruct (read_lines _ _) as [[]|]; reflexivity.
Qed.

Lemma request_step_preserves_NoDup w w' :
  request_step w w' -> NoDup (map id (db w)) -> NoDup (map id (db w')).
Proof.
  intros Hstep Hnd. destruct Hstep as [k text w|k y m d w|k date w].
  - unfold route_upload.
    destruct (depends_verify_api_key_world k (upload_data text) w) as [->| ->];
      [exact Hnd | now apply upload_data_preserves_NoDup].
  - unfold route_readings.
    destruct (depends_verify_api_key_world k (get_readings y m d) w) as [->| ->];
      [exact Hnd | now rewrite get_readings_world].
  - unfold route_files.
    destruct (depends_verify_api_key_world k (get_file_data date) w) as [->| ->];
      [exact Hnd | now rewrite get_file_data_world].
Qed.

(** C8: in every world the service can reach, no two stored readings
    share an id; and the ids built for one uploaded batch, made of the
    clock reading, longitude, latitude and the position of the row, are
    pairwise distinct. *)
Theorem ids_are_unique (w : World) :
  reachable w ->
  NoDup (map id (db w))
  /\ forall text, NoDup (map id (batch text w)).
Proof.
  intros Hreach. split; [|intros text; apply batch_ids_NoDup].
  induction Hreach as [clk fs|w w' _ IH Hstep]; [constructor|].
  eapply request_step_preserves_NoDup; eauto.
Qed.

(** C9, amended: the [raw_data] of every stored reading is the parsed
    row, its three fields joined again with commas; when the payload has
    no quote character, each parsed row joined with commas is its line of
    the payload verbatim, less the line terminator. *)
Theorem raw_data_is_rejoined_row (text : string) (w : World) :
  Forall2 (λ row r, raw_data r = Some (PyStr.join "," row))
          (filter (λ row, numeric_row row)
                  (fst (Csv.reader (Csv.StringIO text))))
          (batch text w)
  /\ (PyStr.mem PyStr.QUOTE text = false ->
      String.concat EmptyString (Csv.StringIO text) = text
      /\ Forall2 verbatim_row
                 (take (length (fst (Csv.reader (Csv.StringIO text))))
                       (Csv.StringIO text))
                 (fst (Csv.reader (Csv.StringIO text)))).
Proof.
  split.
  - unfold batch.
    destruct (upload_loop_rows 0 (fst (Csv.reader (Csv.StringIO text)))
                               (clock_reads w)) as [Hrows _].
    eapply Forall2_impl; [exact Hrows|].
    intros row r [_ Hraw]. exact Hraw.
  - intros Hq. split;
      [apply CsvFacts.StringIO_concat | now apply CsvFacts.reader_plain].
Qed.

End UploadTheorems.

(** ** API key and [GET /files/{date}] *)

Section GateAndFiles.

Context {env : Env}.

Lemma verify_api_key_member api_key :
  api_key ∈ API_KEYS -> verify_api_key api_key = Return api_key.
Proof.
  intros H. unfold verify_api_key. now rewrite bool_decide_eq_true_2.
Qed.



Lemma depends_verify_api_key_member {A} api_key
    (handler : World -> outcome A * World) w :
  api_key ∈ API_KEYS ->
  depends_verify_api_key api_key handler w = handler w.
Proof.
  intros H. unfold depends_verify_api_key.
  now rewrite verify_api_key_member.
Qed.


(** C6: with a valid key, a date whose file is not in the data directory
    is answered with status 404. *)
Theorem missing_file_is_not_found (api_key date : string) (w : World) :
  api_key ∈ API_KEYS ->
  files w !! file_path date = None ->
  route_files api_key date w
  = (HTTPException 404 "No data for this date", w).
Proof.
  intros Hkey Hnone. unfold route_files.
  rewrite depends_verify_api_key_member by assumption.
  unfold get_file_data. now rewrite Hnone.
Qed.

Lemma parse_line_cases line :
  (exists r, parse_line line = inr r /\ line_record line r
             /\ well_formed_line line)
  \/ (parse_line line = inl ValueError /\ ~ well_formed_line line).
Proof.
  unfold parse_line, line_record, well_formed_line.
  destruct (PyStr.split PyStr.COMMA (PyStr.strip line))
    as [|lon [|lat [|a [|ts [|x rest]]]]] eqn:Hsplit;
    try (right; split; [reflexivity|];
         intros (? & ? & ? & ? & Heq & _); discriminate Heq).
  destruct (float_of_str lon) as [lon'|] eqn:Hlon.
  2: { right; split; [reflexivity|].
       intros (? & ? & ? & ? & [= <- <- <- <-] & [? Hl] & _). congruence. }
  destruct (float_of_str lat) as [lat'|] eqn:Hlat.
  2: { right; split; [reflexivity|].
       intros (? & ? & ? & ? & [= <- <- <- <-] & _ & [? Hl] & _). congruence. }
  destruct (float_of_str a) as [a'|] eqn:Ha.
  2: { right; split; [reflexivity|].
       intros (? & ? & ? & ? & [= <- <- <- <-] & _ & _ & [? Hl]). congruence. }
  left. eexists. split; [reflexivity|]. split.
  - exists lon, lat, a. simpl. auto.
  - exists lon, lat, a, ts. rewrite Hlon, Hlat, Ha. eauto 10.
Qed.

Lemma read_lines_spec lines acc :
  (Forall well_formed_line lines /\
   exists readings, read_lines lines acc = inr (acc ++ readings)
                    /\ Forall2 line_record lines readings)
  \/ (~ Forall well_formed_line lines
      /\ read_lines lines acc = inl ValueError).
Proof.
  revert acc. induction lines as [|line rest IH]; intros acc.
  - left. split; [constructor|]. exists []. simpl.
    rewrite app_nil_r. split; [reflexivity | constructor].
  - simpl. destruct (parse_line_cases line)
      as [(r & -> & Hrec & Hwf) | [-> Hbad]]; simpl.
    + destruct (IH (acc ++ [r])) as [(Hall & rs & -> & Hrs) | [Hnot ->]].
      * left. split; [now constructor|]. exists (r :: rs).
        rewrite <- app_assoc. split; [reflexivity | now constructor].
      * right. split; [|reflexivity].
        intros Hall. apply Hnot. now inversion Hall.
    + right. split; [|reflexivity].
      intros Hall. apply Hbad. now inversion Hall.
Qed.


End GateAndFiles.

(** * Concrete requests *)

Section Runs.

Local Existing Instance run_env.

Lemma the_key_configured : the_key ∈ API_KEYS.
Proof. change (the_key ∈ ({[ the_key ]} : gset string)). set_solver. Qed.


(** C1: the store holds readings stamped 2024-03-15 23:59:58, 23:59:59
    and 2024-03-16 00:00:00; the query for 2024-03-15 returns the first
    one only: the reading stamped 23:59:59 of the day is left out. *)
Theorem day_query_misses_last_second :
  get_readings (Some 2024) (Some 3) (Some 15) end_of_day_world
  = (Return [to_dict (stored "a" (mk_datetime 2024 3 15 23 59 58 0))],
     end_of_day_world).
Proof. reflexivity. Qed.

(** C2 does not hold for every payload: the reader yields the numeric row
    [1.0,2.0,50], then stops with an error on the carriage return inside
    the second line; nothing is stored and the error reaches the
    client. *)
Lemma upload_aborts_on_stray_carriage_return :
  Csv.reader (Csv.StringIO stray_cr_payload)
  = ([["1.0"; "2.0"; "50"]], Some CsvError)
  /\ numeric_row ["1.0"; "2.0"; "50"] = true
  /\ upload_data stray_cr_payload empty_world
     = (Uncaught CsvError, mk_world [] 1%nat ∅).
Proof. repeat split; reflexivity. Qed.

(** The same payload uploaded twice within one reading of a coarse clock:
    the second insert repeats an id and is rejected as a whole. *)
Example upload_rejected_when_ids_collide :
  fst (upload_data (env := example_env coarse_clock) "1.0,2.0,50"
                   (mk_world [] 0%nat ∅))
  = Return "Successfully uploaded 1 readings"
  /\ fst (upload_data (env := example_env coarse_clock) "1.0,2.0,50"
            (snd (upload_data (env := example_env coarse_clock) "1.0,2.0,50"
                              (mk_world [] 0%nat ∅))))
     = Uncaught IntegrityError.
Proof. split; reflexivity. Qed.

(** C9 does not hold for quoted fields: a row written with one is stored
    without its quotes, a text that occurs nowhere in the payload. *)
Lemma raw_data_differs_from_quoted_row :
  map raw_data (db (snd (upload_data quoted_payload empty_world)))
  = [Some "1.0,2.0,3.0"]
  /\ PyStr.contains "1.0,2.0,3.0" quoted_payload = false.
Proof. split; reflexivity. Qed.

(** The scenario of the specification: two rows out of three are
    stored, and the unfiltered query returns them newest first. *)
Example upload_then_query :
  fst (route_upload the_key scenario_payload empty_world)
  = Return "Successfully uploaded 2 readings"
  /\ (match fst (route_readings the_key None None None
                   (snd (route_upload the_key scenario_payload empty_world)))
      with
      | Return l => map out_raw_data l
      | _ => []
      end)
     = [Some "3.0,4.0,75"; Some "1.0,2.0,50"].
Proof. split; reflexivity. Qed.

Lemma scenario_rows_read :
  Csv.reader (Csv.StringIO scenario_payload) = (scenario_rows, None).
Proof. reflexivity. Qed.

Lemma upload_stores_numeric_rows_witness :
  Csv.reader (Csv.StringIO scenario_payload) = (scenario_rows, None)
  /\ NoDup (map id (db empty_world ++ batch scenario_payload empty_world))
  /\ exists readings,
       upload_data scenario_payload empty_world
       = (Return (upload_message
                    (length (filter (λ row, numeric_row row) scenario_rows))),
          mk_world (db empty_world ++ readings)
                   (clock_reads empty_world + length readings)
                   (files empty_world))
       /\ Forall2 reading_of_row
                  (filter (λ row, numeric_row row) scenario_rows) readings.
Proof.
  split; [exact scenario_rows_read|].
  split; [exact (batch_ids_NoDup scenario_payload empty_world)|].
  exact (proj1 (upload_stores_numeric_rows scenario_payload empty_world
                  scenario_rows scenario_rows_read)
               (batch_ids_NoDup scenario_payload empty_world)).
Defined.

Lemma raw_data_is_rejoined_row_witness :
  Forall2 (λ row r, raw_data r = Some (PyStr.join "," row))
          (filter (λ row, numeric_row row)
                  (fst (Csv.reader (Csv.StringIO scenario_payload))))
          (batch scenario_payload empty_world)
  /\ PyStr.mem PyStr.QUOTE scenario_payload = false
  /\ String.concat EmptyString (Csv.StringIO scenario_payload)
     = scenario_payload
  /\ Forall2 verbatim_row
             (take (length (fst (Csv.reader (Csv.StringIO scenario_payload))))
                   (Csv.StringIO scenario_payload))
             (fst (Csv.reader (Csv.StringIO scenario_payload))).
Proof.
  split; [exact (proj1 (raw_data_is_rejoined_row scenario_payload empty_world))|].
  split; [reflexivity|].
  exact (proj2 (raw_data_is_rejoined_row scenario_payload empty_world)
               eq_refl).
Defined.

Lemma month_query_half_open_window_witness :
  Datetime.MINYEAR <= 2024 <= Datetime.MAXYEAR
  /\ 1 <= 12 <= 12
  /\ (12 = 12 -> 2024 < Datetime.MAXYEAR)
  /\ exists readings,
       get_readings (Some 2024) (Some 12) None end_of_year_world
       = (Return (map to_dict readings), end_of_year_world)
       /\ readings ≡ₚ
            filter (λ r, in_half_open (first_of_month 2024 12)
                                      (first_of_next_month 2024 12)
                                      (timestamp r)) (db end_of_year_world)
       /\ StronglySorted newest_first readings
       /\ (12 = 12 -> first_of_next_month 2024 12 = midnight (2024 + 1) 1 1).
Proof.
  unfold Datetime.MINYEAR, Datetime.MAXYEAR.
  split; [lia|]. split; [lia|]. split; [lia|].
  apply (month_query_half_open_window 2024 12 end_of_year_world);
    unfold Datetime.MINYEAR, Datetime.MAXYEAR; lia.
Defined.

Lemma readings_newest_first_witness :
  date_filter None None None = inr None
  /\ exists readings,
       get_readings None None None uploaded_world
       = (Return (map to_dict readings), uploaded_world)
       /\ StronglySorted newest_first readings
       /\ readings ≡ₚ filter (λ r, where_clause None r) (db uploaded_world)
       /\ ((forall r, r ∈ db uploaded_world -> where_clause None r = false) ->
           get_readings None None None uploaded_world
           = (Return [], uploaded_world)).
Proof.
  split; [reflexivity|].
  apply (readings_newest_first None None None uploaded_world None).
  reflexivity.
Defined.

Lemma invalid_calendar_date_is_server_error_witness :
  the_key ∈ API_KEYS
  /\ (~ (1 <= 13 <= 12)
      \/ exists d, None = Some d
                   /\ ~ (1 <= d <= Datetime.days_in_month 2024 13))
  /\ exists e,
       route_readings the_key (Some 2024) (Some 13) None empty_world
       = (Uncaught e, empty_world)
       /\ status_of (fst (route_readings the_key (Some 2024) (Some 13) None
                                         empty_world)) = 500.
Proof.
  assert (Hbad : ~ (1 <= 13 <= 12)
                 \/ exists d, None = Some d
                      /\ ~ (1 <= d <= Datetime.days_in_month 2024 13))
    by (left; lia).
  split; [exact the_key_configured|]. split; [exact Hbad|].
  exact (invalid_calendar_date_is_server_error the_key 2024 13 None
           empty_world the_key_configured Hbad).
Defined.

(** April has thirty days: a query for April 31 is a server error too. *)
Example april_31_is_server_error :
  route_readings the_key (Some 2024) (Some 4) (Some 31) empty_world
  = (Uncaught ValueError, empty_world).
Proof. reflexivity. Qed.


Lemma missing_file_is_not_found_witness :
  the_key ∈ API_KEYS
  /\ files empty_world !! file_path "2024-03-15" = None
  /\ route_files the_key "2024-03-15" empty_world
     = (HTTPException 404 "No data for this date", empty_world).
Proof.
  split; [exact the_key_configured|]. split; [reflexivity|].
  apply (missing_file_is_not_found the_key "2024-03-15" empty_world);
    [exact the_key_configured | reflexivity].
Defined.



Lemma uploaded_world_reachable : reachable uploaded_world.
Proof.
  eapply reachable_step; [apply (reachable_init 0%nat ∅)|].
  apply step_upload.
Qed.

Lemma ids_are_unique_witness :
  reachable uploaded_world
  /\ NoDup (map id (db uploaded_world))
  /\ forall text, NoDup (map id (batch text uploaded_world)).
Proof.
  split; [exact uploaded_world_reachable|].
  exact (ids_are_unique uploaded_world uploaded_world_reachable).
Defined.

(** A well-formed file is read in full, and one bad line is enough to
    lose a file. *)
Example file_read_runs :
  (match fst (route_files the_key "2024-03-15" world_with_file) with
   | Return rs => map f_timestamp rs
   | _ => []
   end) = ["2024-03-15T10:00:00"; "noon"]
  /\ fst (get_file_data "d"
            (mk_world [] 0%nat
               {[ "data/d.csv" := "1.0,2.0,50,t" +:+ LF_s +:+ "3.0,4.0" ]}))
     = HTTPException 400 "Invalid date format".
Proof. split; reflexivity. Qed.

End Runs.

(** * Further properties *)

(** ** More on the order of timestamps *)

Module DatetimeOrder.
Import Datetime.

Lemma cmp_tuple_lt_le_trans a b c :
  cmp_tuple a b = Lt -> cmp_tuple b c <> Gt -> cmp_tuple a c = Lt.
Proof.
  revert b c; induction a as [|x a IH]; intros [|y b] [|z c]; simpl;
    try congruence.
  destruct (Z.compare_spec x y), (Z.compare_spec y z), (Z.compare_spec x z);
    subst; try lia; try congruence; eauto.
Qed.

Lemma ltb_leb_trans a b c :
  ltb a b = true -> leb b c = true -> ltb a c = true.
Proof.
  rewrite DatetimeFacts.leb_spec. unfold ltb, cmp. intros Hab Hbc.
  destruct (cmp_tuple (to_tuple a) (to_tuple b)) eqn:Hc; try discriminate.
  now rewrite (cmp_tuple_lt_le_trans _ _ _ Hc Hbc).
Qed.

(** Decide the order of two timestamps given by their fields. *)
Ltac by_fields :=
  unfold leb, ltb, cmp, to_tuple; cbn [cmp_tuple dt_year dt_month dt_day
    dt_hour dt_minute dt_second dt_microsecond];
  repeat match goal with
         | |- context [?a ?= ?b] =>
             destruct (Z.compare_spec a b); try lia; simpl
         end;
  try reflexivity; try lia.

Lemma midnight_leb_day year month day :
  1 <= day -> leb (mk_datetime year month 1 0 0 0 0)
                  (mk_datetime year month day 0 0 0 0) = true.
Proof. intros H. by_fields. Qed.

Lemma last_second_leb_next_month year month day :
  1 <= month <= 12 ->
  leb (mk_datetime year month day 23 59 59 0)
      (if month =? 12 then mk_datetime (year + 1) 1 1 0 0 0 0
       else mk_datetime year (month + 1) 1 0 0 0 0) = true.
Proof. intros H. destruct (Z.eqb_spec month 12); by_fields. Qed.

Lemma new_year_leb_month year month :
  1 <= month -> leb (mk_datetime year 1 1 0 0 0 0)
                    (mk_datetime year month 1 0 0 0 0) = true.
Proof. intros H. by_fields. Qed.

Lemma next_month_leb_next_year year month :
  1 <= month <= 12 ->
  leb (if month =? 12 then mk_datetime (year + 1) 1 1 0 0 0 0
       else mk_datetime year (month + 1) 1 0 0 0 0)
      (mk_datetime (year + 1) 1 1 0 0 0 0) = true.
Proof. intros H. destruct (Z.eqb_spec month 12); by_fields. Qed.

Lemma new_bad_year year month day hour minute second microsecond :
  ~ (MINYEAR <= year <= MAXYEAR) ->
  exists e, new year month day hour minute second microsecond = inl e.
Proof.
  intros Hy. unfold new.
  destruct (negb (forallb _ _)); [eauto|].
  rewrite (DatetimeFacts.between_false _ _ _ Hy). simpl. eauto.
Qed.

End DatetimeOrder.

(** ** More on [GET /readings] *)

Section MoreQueries.

Context {env : Env}.

Lemma date_filter_year year day :
  1 <= year <= 9998 ->
  date_filter (Some year) None day
  = inr (Some (midnight year 1 1, midnight (year + 1) 1 1)).
Proof.
  intros Hy. unfold date_filter, Datetime.of_date.
  pose proof (DatetimeFacts.days_in_month_ge_28 year 1 ltac:(lia)).
  pose proof (DatetimeFacts.days_in_month_ge_28 (year + 1) 1 ltac:(lia)).
  rewrite !DatetimeFacts.new_valid
    by (unfold Datetime.MINYEAR, Datetime.MAXYEAR; lia).
  reflexivity.
Qed.

(** X1: a query with a year and no month returns exactly the readings
    stamped from January 1 of that year at midnight up to, and not
    including, January 1 of the next year, newest first; a day sent along
    is ignored. *)
Theorem year_query_half_open_window (year : Z) (day : option Z) (w : World) :
  1 <= year <= 9998 ->
  exists readings,
    get_readings (Some year) None day w = (Return (map to_dict readings), w)
    /\ readings ≡ₚ
         filter (λ r, in_half_open (midnight year 1 1)
                                   (midnight (year + 1) 1 1)
                                   (timestamp r)) (db w)
    /\ StronglySorted newest_first readings.
Proof.
  intros Hy. pose proof (date_filter_year year day Hy) as Hf.
  exists (execute (Some (midnight year 1 1, midnight (year + 1) 1 1)) (db w)).
  split; [apply (get_readings_returns _ _ _ _ _ Hf)|].
  split; [|apply execute_sorted].
  exact (execute_perm (Some (_, _)) (db w)).
Qed.

(** X2: without a year nothing is filtered and nothing is validated:
    whatever month and day are sent, the query returns every stored
    reading, newest first. *)
Theorem query_without_year_returns_all
    (month day : option Z) (w : World) :
  exists readings,
    get_readings None month day w = (Return (map to_dict readings), w)
    /\ StronglySorted newest_first readings /\ readings ≡ₚ db w.
Proof. apply unfiltered_query_returns_all. Qed.

(** X3: a year query is answered only for the years 1 to 9998: outside
    1..9999 the year is no date, and for 9999 the upper bound of the
    window, January 1 of 10000, is none; the constructor raises and the
    request is a server error. *)
Theorem year_query_out_of_bounds (year : Z) (day : option Z) (w : World) :
  ~ (1 <= year <= 9998) ->
  exists e, get_readings (Some year) None day w = (Uncaught e, w).
Proof.
  intros Hy.
  assert (exists e, date_filter (Some year) None day = inl e) as [e He].
  { unfold date_filter, Datetime.of_date.
    destruct (Datetime.new year 1 1 0 0 0 0) as [e|start] eqn:Hs;
      [simpl; eauto|].
    destruct (DatetimeOrder.new_bad_year (year + 1) 1 1 0 0 0 0) as [e ->];
      [|simpl; eauto].
    destruct (decide (1 <= year <= 9999)) as [Hin|Hout].
    - unfold Datetime.MINYEAR, Datetime.MAXYEAR. lia.
    - destruct (DatetimeOrder.new_bad_year year 1 1 0 0 0 0) as [e' He'];
        [exact Hout | congruence]. }
  exists e. now apply get_readings_raises.
Qed.

(** X4: a query for a valid day returns exactly the readings stamped from
    midnight of that day up to, and not including, 23:59:59 of that day,
    newest first. *)
Theorem day_query_window (year month day : Z) (w : World) :
  valid_date year month day ->
  exists readings,
    get_readings (Some year) (Some month) (Some day) w
    = (Return (map to_dict readings), w)
    /\ readings ≡ₚ
         filter (λ r, in_half_open (midnight year month day)
                                   (mk_datetime year month day 23 59 59 0)
                                   (timestamp r)) (db w)
    /\ StronglySorted newest_first readings.
Proof.
  intros Hvalid. pose proof (date_filter_day year month day Hvalid) as Hf.
  exists (execute (Some (midnight year month day,
                         mk_datetime year month day 23 59 59 0)) (db w)).
  split; [apply (get_readings_returns _ _ _ _ _ Hf)|].
  split; [|apply execute_sorted].
  exact (execute_perm (Some (_, _)) (db w)).
Qed.

Lemma in_window_widen a b a' b' r :
  Datetime.leb a' a = true -> Datetime.leb b b' = true ->
  in_window a b r = true -> in_window a' b' r = true.
Proof.
  unfold in_window, Datetime.geb. intros Ha Hb Hin.
  apply andb_true_iff in Hin as [Hge Hlt]. apply andb_true_iff. split.
  - change (Datetime.leb a' (timestamp r) = true).
    eapply DatetimeFacts.leb_trans; [exact Ha|exact Hge].
  - eapply DatetimeOrder.ltb_leb_trans; eauto.
Qed.

(** X5: the three granularities are nested: for a valid day of a year
    before 9999, whatever the day query returns the month query returns,
    and whatever the month query returns the year query returns. *)
Theorem day_month_year_nested (year month day : Z) (w : World) :
  valid_date year month day ->
  year < Datetime.MAXYEAR ->
  exists of_day of_month of_year,
    get_readings (Some year) (Some month) (Some day) w
    = (Return (map to_dict of_day), w)
    /\ get_readings (Some year) (Some month) None w
       = (Return (map to_dict of_month), w)
    /\ get_readings (Some year) None None w
       = (Return (map to_dict of_year), w)
    /\ of_day ⊆ of_month /\ of_month ⊆ of_year.
Proof.
  intros Hvalid Hy. pose proof Hvalid as (Hyear & Hm & Hd).
  unfold Datetime.MINYEAR, Datetime.MAXYEAR in *.
  pose proof (date_filter_day year month day Hvalid) as Hfd.
  pose proof (date_filter_month year month) as Hfm.
  unfold Datetime.MINYEAR, Datetime.MAXYEAR in Hfm.
  specialize (Hfm Hyear Hm ltac:(lia)).
  pose proof (date_filter_year year None ltac:(lia)) as Hfy.
  do 3 eexists.
  split; [apply (get_readings_returns _ _ _ _ _ Hfd)|].
  split; [apply (get_readings_returns _ _ _ _ _ Hfm)|].
  split; [apply (get_readings_returns _ _ _ _ _ Hfy)|].
  split; intros r Hr; apply execute_elem_of in Hr as [Hin Hsel];
    apply execute_elem_of; (split; [exact Hin|]);
    unfold where_clause in *;
    eapply in_window_widen; try exact Hsel.
  - apply DatetimeOrder.midnight_leb_day. lia.
  - apply DatetimeOrder.last_second_leb_next_month. lia.
  - apply DatetimeOrder.new_year_leb_month. lia.
  - apply DatetimeOrder.next_month_leb_next_year. lia.
Qed.

End MoreQueries.

(** ** More on [POST /upload] *)

Module CsvErrors.
Import Csv.

Lemma parse_add_char_error r c e : parse_add_char r c = inl e -> e = CsvError.
Proof. unfold parse_add_char. destruct (_ <=? _)%N; congruence. Qed.

Lemma parse_process_char_error r i e :
  parse_process_char r i = inl e -> e = CsvError.
Proof.
  unfold parse_process_char, start_field.
  destruct (state r), i as [c|]; try discriminate;
    repeat match goal with
           | |- context [if ?b then _ else _] => destruct b
           end;
    try discriminate; try congruence;
    try (destruct (parse_add_char _ c) as [e'|r'] eqn:Hadd; simpl;
         [apply parse_add_char_error in Hadd; congruence | discriminate]);
    try apply parse_add_char_error.
Qed.

Lemma feed_line_error line : forall r e,
  feed_line r line = inl e -> e = CsvError.
Proof.
  induction line as [|c line IH]; intros r e; simpl.
  - apply parse_process_char_error.
  - destruct (parse_process_char r (Chr c)) as [e'|r'] eqn:Hstep; simpl.
    + apply parse_process_char_error in Hstep. congruence.
    + apply IH.
Qed.

Lemma iter_rows_error lines : forall r rows e,
  iter_rows r lines = (rows, Some e) -> e = CsvError.
Proof.
  induction lines as [|line rest IH]; intros r rows e; simpl.
  - destruct (_ || _); discriminate.
  - destruct (feed_line r line) as [e'|r'] eqn:Hfeed.
    + apply feed_line_error in Hfeed. congruence.
    + destruct (at_start_record r'); [|apply IH].
      destruct (iter_rows parse_reset rest) as [rows' e''] eqn:Hrec.
      intros [= <- ->]. eapply IH; eauto.
Qed.

(** The only exception the reader raises is its own error. *)
Lemma reader_error lines rows e :
  reader lines = (rows, Some e) -> e = CsvError.
Proof. apply iter_rows_error. Qed.

End CsvErrors.

Section MoreUploads.

Context {env : Env}.

Lemma batch_clock text w :
  snd (upload_loop 0 (fst (Csv.reader (Csv.StringIO text))) (clock_reads w) [])
  = (clock_reads w + length (batch text w))%nat.
Proof.
  unfold batch.
  destruct (upload_loop_rows 0 (fst (Csv.reader (Csv.StringIO text)))
                             (clock_reads w)) as [Hrows ->].
  now rewrite (Forall2_length _ _ _ Hrows).
Qed.

(** What an upload can do, all in one place. *)
Lemma upload_data_outcome text w :
  let clk := (clock_reads w + length (batch text w))%nat in
  upload_data text w
  = (Return (upload_message (length (batch text w))),
     mk_world (db w ++ batch text w) clk (files w))
  \/ upload_data text w = (Uncaught CsvError, mk_world (db w) clk (files w))
  \/ upload_data text w
     = (Uncaught IntegrityError, mk_world (db w) clk (files w)).
Proof.
  pose proof (batch_clock text w) as Hclk. unfold batch in *.
  unfold upload_data.
  destruct (Csv.reader (Csv.StringIO text)) as [rows err] eqn:Hcsv.
  cbn [fst] in *.
  destruct (upload_loop 0 rows (clock_reads w) []) as [readings clk].
  cbn [fst snd] in *. subst clk.
  destruct err as [e|].
  - apply CsvErrors.reader_error in Hcsv. subst e. auto.
  - unfold commit. case_bool_decide; auto.
Qed.

(** X6: an upload is all or nothing: either the whole batch is appended
    to the table and the answer is its size, or the reader or the primary
    key made it fail and the table is exactly what it was. *)
Theorem upload_all_or_nothing (text : string) (w : World) :
  (fst (upload_data text w) = Return (upload_message (length (batch text w)))
   /\ db (snd (upload_data text w)) = db w ++ batch text w)
  \/ ((fst (upload_data text w) = Uncaught CsvError
       \/ fst (upload_data text w) = Uncaught IntegrityError)
      /\ db (snd (upload_data text w)) = db w).
Proof.
  destruct (upload_data_outcome text w) as [-> | [-> | ->]]; cbn; auto.
Qed.

Lemma upload_data_extends text w :
  db w `prefix_of` db (snd (upload_data text w))
  /\ files (snd (upload_data text w)) = files w
  /\ (clock_reads w <= clock_reads (snd (upload_data text w)))%nat.
Proof.
  destruct (upload_data_outcome text w) as [-> | [-> | ->]]; cbn;
    (split; [|split; [reflexivity | lia]]);
    try reflexivity.
  now exists (batch text w).
Qed.

Lemma request_step_extends w w' :
  request_step w w' ->
  db w `prefix_of` db w' /\ files w' = files w
  /\ (clock_reads w <= clock_reads w')%nat.
Proof.
  intros [k text w0|k y m d w0|k date w0].
  - unfold route_upload.
    destruct (depends_verify_api_key_world k (upload_data text) w0)
      as [->| ->]; [auto | apply upload_data_extends].
  - unfold route_readings.
    destruct (depends_verify_api_key_world k (get_readings y m d) w0)
      as [->| ->]; rewrite ?get_readings_world; auto.
  - unfold route_files.
    destruct (depends_verify_api_key_world k (get_file_data date) w0)
      as [->| ->]; rewrite ?get_file_data_world; auto.
Qed.

(** X7: stored readings stay: whatever requests are served, in whatever
    order and with whatever keys, the table only grows at its end (no
    reading is changed, moved or removed), the files are not written and
    the clock is only read. *)
Theorem stored_readings_stay (w w' : World) :
  rtc request_step w w' ->
  db w `prefix_of` db w' /\ files w' = files w
  /\ (clock_reads w <= clock_reads w')%nat.
Proof.
  induction 1 as [w|w w1 w2 Hstep _ IH].
  - repeat split; reflexivity || lia.
  - destruct (request_step_extends _ _ Hstep) as (Hp & Hf & Hc).
    destruct IH as (Hp' & Hf' & Hc').
    split; [transitivity (db w1); assumption|]. split; [congruence | lia].
Qed.

Lemma upload_loop_lookup idx rows clk : forall k r,
  fst (upload_loop idx rows clk []) !! k = Some r ->
  timestamp r = utcnow (clk + k)
  /\ exists i row,
       rows !! i = Some row /\ numeric_row row = true
       /\ reading_of_row row r
       /\ id r = make_id (timestamp r) (longitude r) (latitude r)
                         (idx + i).
Proof.
  revert idx clk. induction rows as [|row rest IH]; intros idx clk k r Hk.
  - discriminate.
  - assert (forall clk', fst (upload_loop (S idx) rest clk' []) !! k = Some r ->
              clk' = clk ->
              timestamp r = utcnow (clk + k)
              /\ exists i row0, (row :: rest) !! i = Some row0
                   /\ numeric_row row0 = true /\ reading_of_row row0 r
                   /\ id r = make_id (timestamp r) (longitude r) (latitude r)
                                     (idx + i)) as Hskip.
    { intros clk' Hk' ->. destruct (IH _ _ _ _ Hk') as (Ht & i & row0 & Hi & ?).
      split; [exact Ht|]. exists (S i), row0.
      replace (idx + S i)%nat with (S idx + i)%nat by lia. tauto. }
    pose proof (kept_iff_numeric_row row) as Hkept.
    cbn [upload_loop] in Hk.
    destruct (negb (length row =? 3)%nat); [now apply (Hskip clk)|].
    destruct (parse_floats row) as [[[lon lat] a]|] eqn:Hp;
      [|now apply (Hskip clk)].
    rewrite upload_loop_acc in Hk. cbn [fst app] in Hk.
    destruct k as [|k].
    + injection Hk as <-. cbn [timestamp id longitude latitude].
      rewrite Nat.add_0_r. split; [reflexivity|].
      exists 0%nat, row. rewrite Nat.add_0_r.
      repeat split; try reflexivity; try exact Hp.
      destruct (numeric_row row); [reflexivity|].
      destruct Hkept as [_ Hk]. discriminate (Hk eq_refl).
    + cbn in Hk. destruct (IH _ _ _ _ Hk) as (Ht & i & row0 & Hi & ?).
      split; [rewrite Ht; f_equal; lia|]. exists (S i), row0.
      replace (idx + S i)%nat with (S idx + i)%nat by lia. tauto.
Qed.

(** X8: the [k]-th reading of a batch is stamped with the [k]-th clock
    reading taken by the upload; it comes from a numeric row of the
    payload, and its id is built from its own timestamp, longitude and
    latitude and from the position of that row among all rows of the
    payload, the skipped ones included. *)
Theorem batch_reading_provenance
    (text : string) (w : World) (k : nat) (r : DroneReading) :
  batch text w !! k = Some r ->
  timestamp r = utcnow (clock_reads w + k)
  /\ exists i row,
       fst (Csv.reader (Csv.StringIO text)) !! i = Some row
       /\ numeric_row row = true
       /\ reading_of_row row r
       /\ id r = make_id (timestamp r) (longitude r) (latitude r) i.
Proof. intros Hk. exact (upload_loop_lookup 0 _ _ k r Hk). Qed.

Lemma filter_numeric_nil rows :
  Forall (λ row, numeric_row row = false) rows ->
  filter (λ row, numeric_row row) rows = [].
Proof.
  induction 1 as [|row rows Hrow _ IH]; [reflexivity|].
  rewrite filter_cons_False by (rewrite Hrow; exact (fun H => H)).
  exact IH.
Qed.

(** X9: a payload without a single numeric row (an empty payload, say) is
    no error: when the reader reads it to its end, the answer counts 0
    readings and the world is left exactly as it was: nothing is stored
    and the clock is not read. *)
Theorem upload_without_numeric_rows
    (text : string) (w : World) (rows : list (list string)) :
  Csv.reader (Csv.StringIO text) = (rows, None) ->
  Forall (λ row, numeric_row row = false) rows ->
  NoDup (map id (db w)) ->
  upload_data text w = (Return (upload_message 0), w).
Proof.
  intros Hcsv Hrows Hnd. unfold upload_data. rewrite Hcsv.
  destruct (upload_loop_rows 0 rows (clock_reads w)) as [Hr Hclk].
  rewrite (filter_numeric_nil rows Hrows) in Hr, Hclk.
  destruct (upload_loop 0 rows (clock_reads w) []) as [readings clk].
  cbn [fst snd] in *. apply Forall2_nil_inv_l in Hr. subst readings clk.
  rewrite commit_accepts by (now rewrite app_nil_r).
  rewrite app_nil_r, Nat.add_0_r. now destruct w.
Qed.

(** X10: what is uploaded can be read back: after a successful upload the
    unfiltered query returns the readings stored before together with the
    whole batch, newest first. *)
Theorem upload_then_query_all (text : string) (w w' : World) (message : string) :
  upload_data text w = (Return message, w') ->
  exists readings,
    get_readings None None None w' = (Return (map to_dict readings), w')
    /\ readings ≡ₚ db w ++ batch text w
    /\ StronglySorted newest_first readings.
Proof.
  intros Hup.
  assert (db w' = db w ++ batch text w) as Hdb.
  { destruct (upload_data_outcome text w) as [H | [H | H]];
      rewrite H in Hup; [|discriminate..].
    now injection Hup as _ <-. }
  destruct (unfiltered_query_returns_all None None w')
    as (rs & Hret & Hsorted & Hperm).
  exists rs. rewrite <- Hdb. auto.
Qed.

End MoreUploads.

(** ** More on strings *)

Module MoreStrFacts.
Import PyStr PyStrFacts.

Lemma split_nonempty sep s : exists f fs, split sep s = f :: fs.
Proof.
  induction s as [|c s (f & fs & IH)]; simpl; [eauto|].
  destruct (Ascii.eqb c sep); [eauto|]. rewrite IH. eauto.
Qed.

(** No part of a split contains the separator. *)
Lemma split_no_sep sep s :
  Forall (fun f => mem sep f = false) (split sep s).
Proof.
  induction s as [|c s IH]; simpl; [repeat constructor|].
  destruct (Ascii.eqb c sep) eqn:Hc; [constructor; [reflexivity|exact IH]|].
  destruct (split sep s) as [|f fs]; [repeat constructor; simpl|].
  - rewrite Ascii.eqb_sym, Hc. reflexivity.
  - inversion IH as [|? ? Hf Hfs]; subst. constructor; [|exact Hfs].
    rewrite mem_cons, Ascii.eqb_sym, Hc. exact Hf.
Qed.

Lemma split_snoc_sep sep s :
  split sep (s +:+ String sep EmptyString) = split sep s ++ [EmptyString].
Proof.
  induction s as [|c s IH].
  - rewrite append_nil_l. simpl. now rewrite Ascii.eqb_refl.
  - rewrite append_cons. simpl. rewrite IH.
    destruct (Ascii.eqb c sep); [reflexivity|].
    destruct (split_nonempty sep s) as (f & fs & ->). reflexivity.
Qed.

Lemma split_snoc_char sep c s : forall l f,
  Ascii.eqb c sep = false ->
  split sep s = l ++ [f] ->
  split sep (s +:+ String c EmptyString) = l ++ [f +:+ String c EmptyString].
Proof.
  induction s as [|a s IH]; intros l f Hc Hs.
  - rewrite append_nil_l. simpl in *. rewrite Hc.
    destruct l as [|x [|y l]]; try discriminate.
    injection Hs as <-. reflexivity.
  - rewrite append_cons. simpl in *.
    destruct (Ascii.eqb a sep).
    + destruct l as [|x l].
      * destruct (split_nonempty sep s) as (f0 & fs0 & Hf). rewrite Hf in Hs.
        discriminate.
      * injection Hs as <- Hs. now rewrite (IH l f Hc Hs).
    + destruct (split sep s) as [|f0 fs0] eqn:Hsplit.
      { destruct (split_nonempty sep s) as (? & ? & Hf). congruence. }
      destruct l as [|x l].
      * injection Hs as <- ->.
        now rewrite (IH [] f0 Hc eq_refl).
      * injection Hs as <- ->.
        now rewrite (IH (f0 :: l) f Hc eq_refl).
Qed.

Lemma mem_lstrip c s : mem c (lstrip s) = true -> mem c s = true.
Proof.
  induction s as [|a s IH]; simpl; [auto|].
  destruct (isspace a); [|auto].
  intros H. rewrite (IH H). apply orb_true_r.
Qed.

(** Stripping adds no character. *)
Lemma mem_strip c s : mem c (strip s) = true -> mem c s = true.
Proof.
  unfold strip. rewrite mem_rev. intros H.
  apply mem_lstrip in H. rewrite mem_rev in H. now apply mem_lstrip.
Qed.

Lemma append_length s t :
  String.length (s +:+ t) = (String.length s + String.length t)%nat.
Proof.
  induction s as [|c s IH]; [reflexivity|].
  rewrite append_cons. simpl. now rewrite IH.
Qed.

Lemma prefix_inv p : forall s,
  String.prefix p s = true -> s = p +:+ Config.drop (String.length p) s.
Proof.
  induction p as [|a p IH]; intros s H; [reflexivity|].
  destruct s as [|b s]; [discriminate|]. simpl in H.
  destruct (ascii_dec a b) as [->|]; [|discriminate].
  rewrite append_cons. simpl. f_equal. auto.
Qed.

Lemma replace_first_prefix old new s :
  String.prefix old s = true ->
  Config.replace_first old new s
  = new +:+ Config.drop (String.length old) s.
Proof.
  intros H. destruct s; cbn [Config.replace_first]; now rewrite H.
Qed.

End MoreStrFacts.

(** ** Start-up configuration *)

Section Configuration.

Import PyStr PyStrFacts MoreStrFacts.

Lemma normalize_database_url_some url :
  url <> EmptyString ->
  Config.normalize_database_url (Some url)
  = inr (if Config.startswith url "postgres://"
         then Config.replace_first "postgres://" "postgresql+asyncpg://" url
         else if Config.startswith url "postgresql://"
         then Config.replace_first "postgresql://" "postgresql+asyncpg://" url
         else url).
Proof.
  intros Hne. destruct url as [|c url]; [congruence|].
  unfold Config.normalize_database_url.
  destruct (Config.startswith _ "postgres://"); [reflexivity|].
  destruct (Config.startswith _ "postgresql://"); reflexivity.
Qed.

Lemma normalize_database_url_asyncpg rest :
  Config.normalize_database_url (Some ("postgresql+asyncpg://" +:+ rest))
  = inr ("postgresql+asyncpg://" +:+ rest).
Proof. reflexivity. Qed.

(** X11: the database URL: a URL with the scheme [postgres] or
    [postgresql] gets the scheme of the async driver and keeps everything
    after the scheme; any other URL is used as it is; and the result is
    stable: normalising it again changes nothing. *)
Theorem database_url_normalised (url u : string) :
  Config.normalize_database_url (Some url) = inr u ->
  ((exists rest,
      (url = "postgres://" +:+ rest \/ url = "postgresql://" +:+ rest)
      /\ u = "postgresql+asyncpg://" +:+ rest)
   \/ (u = url /\ Config.startswith url "postgres://" = false
       /\ Config.startswith url "postgresql://" = false))
  /\ Config.normalize_database_url (Some u) = inr u.
Proof.
  intros Hn.
  assert (url <> EmptyString) as Hne by (intros ->; discriminate Hn).
  pose proof Hn as Hn'. rewrite (normalize_database_url_some url Hne) in Hn.
  destruct (Config.startswith url "postgres://") eqn:H1.
  - unfold Config.startswith in H1.
    rewrite (replace_first_prefix _ _ _ H1) in Hn.
    apply prefix_inv in H1.
    remember (Config.drop (String.length "postgres://") url) as rest.
    assert (u = "postgresql+asyncpg://" +:+ rest) as -> by congruence.
    split; [left; exists rest; auto|]. apply normalize_database_url_asyncpg.
  - destruct (Config.startswith url "postgresql://") eqn:H2.
    + unfold Config.startswith in H2.
      rewrite (replace_first_prefix _ _ _ H2) in Hn.
      apply prefix_inv in H2.
      remember (Config.drop (String.length "postgresql://") url) as rest.
      assert (u = "postgresql+asyncpg://" +:+ rest) as -> by congruence.
      split; [left; exists rest; auto|]. apply normalize_database_url_asyncpg.
    + assert (u = url) as -> by congruence.
      split; [right; auto | exact Hn'].
Qed.

(** A URL that is missing or empty stops the start-up. *)
Lemma database_url_required :
  Config.normalize_database_url None = inl ValueError
  /\ Config.normalize_database_url (Some EmptyString) = inl ValueError.
Proof. split; reflexivity. Qed.

(** X12: the configured key set is never empty (so the first key that the
    start-up prints exists), and no key contains a comma: a credential
    with a comma in it is never accepted. *)
Theorem api_keys_shape (api_keys_str : string) :
  get_api_keys api_keys_str <> ∅
  /\ forall key, key ∈ get_api_keys api_keys_str ->
                 mem COMMA key = false.
Proof.
  unfold get_api_keys. split.
  - destruct (split_nonempty COMMA api_keys_str) as (f & fs & ->).
    simpl. set_solver.
  - intros key Hkey. apply elem_of_list_to_set in Hkey.
    apply list_elem_of_fmap in Hkey as (seg & -> & Hseg).
    pose proof (split_no_sep COMMA api_keys_str) as Hno.
    rewrite Forall_forall in Hno. specialize (Hno seg Hseg).
    destruct (mem COMMA (strip seg)) eqn:Hm; [|reflexivity].
    apply mem_strip in Hm. congruence.
Qed.

(** X13: an empty segment is a key: when the configured string is empty
    or ends in a comma, the empty string is one of the keys. *)
Theorem empty_segment_is_a_key (api_keys_str : string) :
  (api_keys_str = EmptyString
   \/ exists s, api_keys_str = s +:+ String COMMA EmptyString) ->
  EmptyString ∈ get_api_keys api_keys_str.
Proof.
  intros Hcfg.
  unfold get_api_keys. apply elem_of_list_to_set, list_elem_of_fmap.
  exists EmptyString. split; [reflexivity|].
  destruct Hcfg as [->|[s ->]]; [simpl; constructor|].
  rewrite split_snoc_sep. apply elem_of_app. right. constructor.
Qed.

End Configuration.

(** ** More on [GET /files/{date}] *)

Section MoreFiles.

Context {env : Env}.

Import PyStr PyStrFacts MoreStrFacts.

Lemma blank_line_not_well_formed line :
  strip line = EmptyString -> ~ well_formed_line line.
Proof.
  intros Hblank (lon & lat & a & ts & Hsplit & _).
  rewrite Hblank in Hsplit. discriminate Hsplit.
Qed.

(** X14: a file without lines is an empty list, not an error; but one
    blank line anywhere in a file, a second line feed at its end for
    instance, fails the whole request with status 400. *)
Theorem blank_line_is_bad_request
    (api_key date content : string) (w : World) :
  api_key ∈ API_KEYS ->
  files w !! file_path date = Some content ->
  (splitlines content = [] ->
   route_files api_key date w = (Return [], w))
  /\ (forall line, line ∈ splitlines content -> strip line = EmptyString ->
      route_files api_key date w
      = (HTTPException 400 "Invalid date format", w)).
Proof.
  intros Hkey Hfile. unfold route_files.
  rewrite depends_verify_api_key_member by assumption.
  unfold get_file_data. rewrite Hfile. split.
  - intros ->. reflexivity.
  - intros line Hline Hblank.
    destruct (read_lines_spec (splitlines content) [])
      as [(Hall & _) | [_ ->]]; [|reflexivity].
    rewrite Forall_forall in Hall.
    destruct (blank_line_not_well_formed line Hblank (Hall line Hline)).
Qed.

End MoreFiles.

(** ** [csv.reader] on a payload of plain lines *)

Module CsvPlain.
Import Csv PyStr PyStrFacts MoreStrFacts.

Lemma only_newlines_cons c s :
  only_newlines (String c s) = is_newline c && only_newlines s.
Proof. reflexivity. Qed.

Lemma snoc_not_empty s c : s +:+ String c EmptyString <> EmptyString.
Proof. destruct s; discriminate. Qed.

Lemma row_of_body_not_empty body :
  body <> EmptyString -> row_of_body body = split COMMA body.
Proof. destruct body; [congruence|reflexivity]. Qed.

Lemma feed_newlines line : forall r,
  state r = EAT_CRNL -> only_newlines line = true ->
  feed_line r line = inr (set_state START_RECORD r).
Proof.
  induction line as [|c line IH]; intros [st f fs] Hst Hnl;
    cbn [state] in Hst; subst st.
  - reflexivity.
  - rewrite only_newlines_cons in Hnl. apply andb_true_iff in Hnl as [Hc Hnl].
    cbn [feed_line]. unfold parse_process_char. cbn [state]. rewrite Hc.
    cbn [bind_raising]. now apply IH.
Qed.

Lemma parse_add_char_ok r c :
  (N.of_nat (String.length (field r)) < field_limit)%N ->
  parse_add_char r c
  = inr (mk_reader (state r) (field r +:+ String c EmptyString) (fields r)).
Proof.
  intros H. unfold parse_add_char.
  destruct (N.leb_spec field_limit (N.of_nat (String.length (field r))));
    [lia | reflexivity].
Qed.

(** An ordinary character extends the text read so far. *)
Lemma step_body r pre c :
  reading_line r pre ->
  Ascii.eqb c QUOTE = false -> is_newline c = false ->
  (N.of_nat (String.length pre) < field_limit)%N ->
  exists r', parse_process_char r (Chr c) = inr r'
             /\ reading_line r' (pre +:+ String c EmptyString).
Proof.
  destruct r as [st f fs]. unfold reading_line. cbn [state field fields].
  intros [Hlen Hinv] Hq Hnl Hlim.
  assert (Hadd : forall st',
            parse_add_char (mk_reader st' f fs) c
            = inr (mk_reader st' (f +:+ String c EmptyString) fs)).
  { intros st'. apply parse_add_char_ok. cbn [field]. lia. }
  assert (Hlen' : (String.length (f +:+ String c EmptyString)
                   <= String.length (pre +:+ String c EmptyString))%nat).
  { rewrite !append_length. simpl. lia. }
  assert (Hlen0 : (String.length EmptyString
                   <= String.length (pre +:+ String c EmptyString))%nat).
  { simpl. lia. }
  pose proof (snoc_not_empty pre c) as Hne.
  unfold parse_process_char, start_field.
  cbn [state set_state parse_save_field field fields].
  destruct st; try contradiction;
    cbv beta iota delta [state set_state parse_save_field field fields];
    rewrite ?Hnl, ?Hq;
    destruct (Ascii.eqb c COMMA) eqn:Hc;
    try (apply Ascii.eqb_eq in Hc; subst c);
    rewrite ?Hadd;
    cbv beta iota delta [bind_raising set_state state field fields];
    eexists; (split; [reflexivity|]); cbn [state field fields];
    (split; [assumption|]); (split; [assumption|]).
  - destruct Hinv as (-> & -> & ->). reflexivity.
  - destruct Hinv as (-> & -> & ->). rewrite append_nil_l. simpl.
    now rewrite Hc.
  - destruct Hinv as [_ Hs]. now rewrite split_snoc_sep, Hs.
  - destruct Hinv as [_ Hs]. now apply split_snoc_char.
  - destruct Hinv as [_ Hs]. now rewrite split_snoc_sep, Hs.
  - destruct Hinv as [_ Hs]. now apply split_snoc_char.
Qed.

(** A line terminator closes the record with the split of the text. *)
Lemma step_newline r pre c :
  reading_line r pre -> is_newline c = true ->
  exists r', parse_process_char r (Chr c) = inr r'
             /\ state r' = EAT_CRNL /\ fields r' = row_of_body pre.
Proof.
  destruct r as [st f fs]. unfold reading_line. cbn [state field fields].
  intros [_ Hinv] Hnl.
  unfold parse_process_char, start_field.
  cbn [state set_state parse_save_field field fields].
  destruct st; try contradiction;
    cbv beta iota delta [state set_state parse_save_field field fields];
    rewrite ?Hnl;
    eexists; (split; [reflexivity|]); (split; [reflexivity|]);
    cbn [fields set_state].
  - destruct Hinv as (-> & -> & _). reflexivity.
  - destruct Hinv as [Hne Hs]. now rewrite row_of_body_not_empty.
  - destruct Hinv as [Hne Hs]. now rewrite row_of_body_not_empty.
Qed.

Lemma eol_body r pre :
  reading_line r pre ->
  exists r', parse_process_char r EOL = inr r'
             /\ at_start_record r' = true /\ fields r' = row_of_body pre.
Proof.
  destruct r as [st f fs]. unfold reading_line. cbn [state field fields].
  intros [_ Hinv].
  unfold parse_process_char, start_field.
  cbn [state set_state parse_save_field field fields].
  destruct st; try contradiction;
    eexists; (split; [reflexivity|]); (split; [reflexivity|]);
    cbn [fields set_state].
  - destruct Hinv as (-> & -> & _). reflexivity.
  - destruct Hinv as [Hne Hs]. now rewrite row_of_body_not_empty.
  - destruct Hinv as [Hne Hs]. now rewrite row_of_body_not_empty.
Qed.

Lemma feed_body line : forall r pre,
  reading_line r pre ->
  mem QUOTE line = false -> tidy_line line = true ->
  (N.of_nat (String.length pre + String.length line) <= field_limit)%N ->
  exists r', feed_line r line = inr r'
             /\ at_start_record r' = true
             /\ fields r' = row_of_body (pre +:+ line_body line).
Proof.
  induction line as [|c line IH]; intros r pre Hinv Hq Htidy Hlim.
  - cbn [feed_line line_body]. rewrite append_nil_r. now apply eol_body.
  - rewrite mem_cons in Hq. apply orb_false_iff in Hq as [Hqc Hq].
    rewrite Ascii.eqb_sym in Hqc.
    cbn [feed_line line_body]. unfold tidy_line in Htidy.
    cbn [line_end] in Htidy.
    destruct (is_newline c) eqn:Hnl.
    + rewrite only_newlines_cons, Hnl in Htidy. cbn [andb] in Htidy.
      destruct (step_newline r pre c Hinv Hnl) as (r1 & -> & Hst & Hf).
      cbn [bind_raising]. rewrite (feed_newlines line r1 Hst Htidy).
      eexists. split; [reflexivity|]. split; [reflexivity|].
      cbn [set_state fields]. now rewrite append_nil_r.
    + cbn [String.length] in Hlim.
      destruct (step_body r pre c Hinv Hqc Hnl ltac:(lia)) as (r1 & -> & Hinv1).
      cbn [bind_raising].
      destruct (IH r1 (pre +:+ String c EmptyString) Hinv1 Hq Htidy)
        as (r' & Hfeed & Hst & Hf).
      { rewrite append_length. simpl. lia. }
      exists r'. split; [exact Hfeed|]. split; [exact Hst|].
      now rewrite Hf, append_assoc.
Qed.

Lemma feed_plain_line line :
  mem QUOTE line = false -> tidy_line line = true ->
  (N.of_nat (String.length line) <= field_limit)%N ->
  exists r', feed_line parse_reset line = inr r'
             /\ at_start_record r' = true
             /\ fields r' = row_of_line line.
Proof.
  intros Hq Htidy Hlim.
  apply (feed_body line parse_reset EmptyString); auto.
  split; [simpl; lia | cbn; auto].
Qed.

Lemma iter_rows_plain_lines lines :
  Forall (fun line => mem QUOTE line = false) lines ->
  Forall (fun line => tidy_line line = true
            /\ (N.of_nat (String.length line) <= field_limit)%N) lines ->
  iter_rows parse_reset lines = (map row_of_line lines, None).
Proof.
  induction lines as [|line rest IH]; intros Hq Hok; [reflexivity|].
  apply Forall_cons in Hq as [Hq Hqs]. apply Forall_cons in Hok as [[Ht Hl] Hoks].
  destruct (feed_plain_line line Hq Ht Hl) as (r' & Hfeed & Hst & Hf).
  cbn [iter_rows map]. rewrite Hfeed, Hst, (IH Hqs Hoks), Hf. reflexivity.
Qed.

(** On a payload of plain lines the reader never raises, and returns one
    row per line: the text of the line split on commas. *)
Lemma reader_plain_payload text :
  plain_payload text ->
  reader (StringIO text) = (map row_of_line (StringIO text), None).
Proof.
  intros [Hq Hok]. apply iter_rows_plain_lines; [|exact Hok].
  now apply CsvFacts.StringIO_mem.
Qed.

End CsvPlain.

Section PlainUploads.

Context {env : Env}.

(** X15: a payload of plain lines goes through whole: the reader does
    not raise, and when no id of the batch is stored already the upload
    stores one reading per line whose text, split on commas, is three
    numbers, in the order of the lines, and answers with their number;
    every other line is skipped. *)
Theorem plain_upload_stores_numeric_lines (text : string) (w : World) :
  plain_payload text ->
  NoDup (map id (db w ++ batch text w)) ->
  exists readings,
    upload_data text w
    = (Return (upload_message
                 (length (filter (λ line, numeric_row (row_of_line line))
                                 (Csv.StringIO text)))),
       mk_world (db w ++ readings)
                (clock_reads w + length readings) (files w))
    /\ Forall2 (λ line r, reading_of_row (row_of_line line) r)
               (filter (λ line, numeric_row (row_of_line line))
                       (Csv.StringIO text))
               readings.
Proof.
  intros Hplain Hnd.
  pose proof (CsvPlain.reader_plain_payload text Hplain) as Hcsv.
  unfold batch in Hnd. unfold upload_data. rewrite Hcsv in *. cbn [fst] in Hnd.
  destruct (upload_loop_rows 0 (map row_of_line (Csv.StringIO text))
                             (clock_reads w)) as [Hrows Hclk].
  destruct (upload_loop 0 (map row_of_line (Csv.StringIO text))
                        (clock_reads w) []) as [readings clk].
  cbn [fst snd] in *. exists readings.
  rewrite (commit_accepts _ _ Hnd).
  assert (Hfilter : filter (λ row, numeric_row row)
                           (map row_of_line (Csv.StringIO text))
                    = map row_of_line
                        (filter (λ line, numeric_row (row_of_line line))
                                (Csv.StringIO text))).
  { clear. induction (Csv.StringIO text) as [|line lines IH]; [reflexivity|].
    cbn [map]. destruct (numeric_row (row_of_line line)) eqn:Hn.
    - rewrite !filter_cons_True by (rewrite Hn; exact I). cbn [map].
      now rewrite IH.
    - rewrite !filter_cons_False by (rewrite Hn; exact (fun H => H)).
      exact IH. }
  rewrite Hfilter in Hrows, Hclk. rewrite length_map in Hclk.
  pose proof (Forall2_length _ _ _ Hrows) as Hlen.
  rewrite length_map in Hlen.
  rewrite Hclk, Hlen. split; [reflexivity|].
  exact (proj1 (Forall2_fmap_l row_of_line reading_of_row _ readings) Hrows).
Qed.

End PlainUploads.

(** ** Queries, read by the calendar *)

Module Calendar.
Import Datetime.

Lemma between_inv lo z hi : between lo z hi = true -> lo <= z <= hi.
Proof.
  unfold between. intros H. apply andb_true_iff in H as [H1 H2].
  apply Z.leb_le in H1, H2. lia.
Qed.

Lemma is_datetime_bounds t :
  is_datetime t ->
  MINYEAR <= dt_year t <= MAXYEAR /\ 1 <= dt_month t <= 12
  /\ 1 <= dt_day t <= days_in_month (dt_year t) (dt_month t)
  /\ 0 <= dt_hour t <= 23 /\ 0 <= dt_minute t <= 59
  /\ 0 <= dt_second t <= 59 /\ 0 <= dt_microsecond t <= 999999.
Proof.
  unfold is_datetime, new. intros H.
  destruct (negb (forallb _ _)); [discriminate|].
  repeat match type of H with
         | (if negb (between ?lo ?z ?hi) then _ else _) = _ =>
             let Hb := fresh "Hb" in
             destruct (between lo z hi) eqn:Hb; [|discriminate];
             apply between_inv in Hb; cbn [negb] in H
         end.
  tauto.
Qed.

(** Compare two timestamps field by field. *)
Ltac field_cases :=
  unfold in_half_open, leb, ltb, cmp, to_tuple;
  cbn [cmp_tuple dt_year dt_month dt_day dt_hour dt_minute dt_second
       dt_microsecond];
  repeat match goal with
         | |- context [?a ?= ?b] =>
             destruct (Z.compare_spec a b); cbn [negb andb]
         end;
  split; intros; try discriminate; try reflexivity; try lia.

Lemma year_window_iff t year :
  is_datetime t ->
  in_half_open (midnight year 1 1) (midnight (year + 1) 1 1) t = true
  <-> dt_year t = year.
Proof.
  intros Ht. apply is_datetime_bounds in Ht.
  destruct t as [y m d hh mi ss us]. cbn [dt_year dt_month dt_day dt_hour
    dt_minute dt_second dt_microsecond] in *.
  unfold midnight. field_cases.
Qed.

Lemma month_window_iff t year month :
  is_datetime t -> 1 <= month <= 12 ->
  in_half_open (first_of_month year month) (first_of_next_month year month) t
  = true
  <-> dt_year t = year /\ dt_month t = month.
Proof.
  intros Ht Hm. apply is_datetime_bounds in Ht.
  destruct t as [y m d hh mi ss us]. cbn [dt_year dt_month dt_day dt_hour
    dt_minute dt_second dt_microsecond] in *.
  unfold first_of_month, first_of_next_month, midnight.
  destruct (Z.eqb_spec month 12); field_cases.
Qed.

Lemma day_window_iff t year month day :
  is_datetime t ->
  in_half_open (midnight year month day)
               (mk_datetime year month day 23 59 59 0) t = true
  <-> dt_year t = year /\ dt_month t = month /\ dt_day t = day
      /\ ~ (dt_hour t = 23 /\ dt_minute t = 59 /\ dt_second t = 59).
Proof.
  intros Ht. apply is_datetime_bounds in Ht.
  destruct t as [y m d hh mi ss us]. cbn [dt_year dt_month dt_day dt_hour
    dt_minute dt_second dt_microsecond] in *.
  unfold midnight. field_cases.
Qed.

End Calendar.

Section CalendarQueries.

Context {env : Env}.

Lemma selected_iff window (w : World) (P : DroneReading -> Prop) :
  (forall r, r ∈ db w -> (where_clause window r = true <-> P r)) ->
  forall r, r ∈ execute window (db w) <-> r ∈ db w /\ P r.
Proof.
  intros HP r. rewrite execute_elem_of. split.
  - intros [Hin Hsel]. split; [exact Hin|]. now apply HP.
  - intros [Hin Hr]. split; [exact Hin|]. now apply HP.
Qed.

(** X16: when every stored timestamp is a datetime, the query for a year
    (1 to 9998) returns a stored reading exactly when the year of its
    timestamp is that year. *)
Theorem year_query_by_calendar (year : Z) (day : option Z) (w : World) :
  1 <= year <= 9998 ->
  Forall (λ r, is_datetime (timestamp r)) (db w) ->
  exists readings,
    get_readings (Some year) None day w = (Return (map to_dict readings), w)
    /\ forall r, r ∈ readings
                 <-> r ∈ db w /\ dt_year (timestamp r) = year.
Proof.
  intros Hy Hdt. rewrite Forall_forall in Hdt.
  pose proof (date_filter_year year day Hy) as Hf.
  eexists. split; [apply (get_readings_returns _ _ _ _ _ Hf)|].
  apply selected_iff. intros r Hr.
  apply (Calendar.year_window_iff (timestamp r) year (Hdt r Hr)).
Qed.

(** X17: when every stored timestamp is a datetime, the query for a
    month returns a stored reading exactly when the year and the month of
    its timestamp are those of the query. *)
Theorem month_query_by_calendar (year month : Z) (w : World) :
  Datetime.MINYEAR <= year <= Datetime.MAXYEAR ->
  1 <= month <= 12 ->
  (month = 12 -> year < Datetime.MAXYEAR) ->
  Forall (λ r, is_datetime (timestamp r)) (db w) ->
  exists readings,
    get_readings (Some year) (Some month) None w
    = (Return (map to_dict readings), w)
    /\ forall r, r ∈ readings
                 <-> r ∈ db w /\ dt_year (timestamp r) = year
                     /\ dt_month (timestamp r) = month.
Proof.
  intros Hy Hm Hroll Hdt. rewrite Forall_forall in Hdt.
  pose proof (date_filter_month year month Hy Hm Hroll) as Hf.
  eexists. split; [apply (get_readings_returns _ _ _ _ _ Hf)|].
  apply selected_iff. intros r Hr.
  apply (Calendar.month_window_iff (timestamp r) year month (Hdt r Hr) Hm).
Qed.

(** X18: when every stored timestamp is a datetime, the query for a valid
    day returns a stored reading exactly when its timestamp is of that day
    and not in the last second of it, 23:59:59. *)
Theorem day_query_by_calendar (year month day : Z) (w : World) :
  valid_date year month day ->
  Forall (λ r, is_datetime (timestamp r)) (db w) ->
  exists readings,
    get_readings (Some year) (Some month) (Some day) w
    = (Return (map to_dict readings), w)
    /\ forall r, r ∈ readings
                 <-> r ∈ db w
                     /\ dt_year (timestamp r) = year
                     /\ dt_month (timestamp r) = month
                     /\ dt_day (timestamp r) = day
                     /\ ~ (dt_hour (timestamp r) = 23
                           /\ dt_minute (timestamp r) = 59
                           /\ dt_second (timestamp r) = 59).
Proof.
  intros Hvalid Hdt. rewrite Forall_forall in Hdt.
  pose proof (date_filter_day year month day Hvalid) as Hf.
  eexists. split; [apply (get_readings_returns _ _ _ _ _ Hf)|].
  apply selected_iff. intros r Hr.
  apply (Calendar.day_window_iff (timestamp r) year month day (Hdt r Hr)).
Qed.

End CalendarQueries.

(** ** Where timestamps come from *)

Section ClockInvariant.

Context {env : Env}.

Lemma batch_from_clock text w r :
  r ∈ batch text w ->
  exists n, (clock_reads w <= n < clock_reads w + length (batch text w))%nat
            /\ timestamp r = utcnow n.
Proof.
  intros Hr. apply list_elem_of_lookup in Hr as [k Hk].
  pose proof (lookup_lt_Some _ _ _ Hk) as Hlt.
  destruct (upload_loop_lookup 0 _ _ k r Hk) as [Ht _].
  exists (clock_reads w + k)%nat. split; [lia | exact Ht].
Qed.

Lemma upload_data_from_clock text w :
  (forall r, r ∈ db w ->
     exists n, (n < clock_reads w)%nat /\ timestamp r = utcnow n) ->
  forall r, r ∈ db (snd (upload_data text w)) ->
    exists n, (n < clock_reads (snd (upload_data text w)))%nat
              /\ timestamp r = utcnow n.
Proof.
  intros Hold r.
  destruct (upload_data_outcome text w) as [-> | [-> | ->]];
    cbn [snd db clock_reads]; intros Hr.
  - apply elem_of_app in Hr as [Hr|Hr].
    + destruct (Hold r Hr) as (n & Hn & Ht). exists n. split; [lia|exact Ht].
    + destruct (batch_from_clock text w r Hr) as (n & Hn & Ht).
      exists n. split; [lia|exact Ht].
  - destruct (Hold r Hr) as (n & Hn & Ht). exists n. split; [lia|exact Ht].
  - destruct (Hold r Hr) as (n & Hn & Ht). exists n. split; [lia|exact Ht].
Qed.

Lemma timestamps_are_clock_readings_aux (w : World) :
  reachable w ->
  forall r, r ∈ db w ->
    exists n, (n < clock_reads w)%nat /\ timestamp r = utcnow n.
Proof.
  induction 1 as [clk fs|w w' _ IH Hstep].
  - intros r Hr. cbn in Hr. inversion Hr.
  - destruct Hstep as [k text w|k y m d w|k date w].
    + unfold route_upload.
      destruct (depends_verify_api_key_world k (upload_data text) w)
        as [->| ->]; [exact IH | now apply upload_data_from_clock].
    + unfold route_readings.
      destruct (depends_verify_api_key_world k (get_readings y m d) w)
        as [->| ->]; rewrite ?get_readings_world; exact IH.
    + unfold route_files.
      destruct (depends_verify_api_key_world k (get_file_data date) w)
        as [->| ->]; rewrite ?get_file_data_world; exact IH.
Qed.

(** X19: timestamps come from the clock and from nowhere else: in every
    world the service can reach, the timestamp of each stored reading is
    one of the clock readings taken so far. *)
Theorem timestamps_are_clock_readings (w : World) :
  reachable w ->
  forall r, r ∈ db w ->
    exists n, (n < clock_reads w)%nat /\ timestamp r = utcnow n.
Proof.
  intros Hreach r Hr.
  destruct (timestamps_are_clock_readings_aux w Hreach r Hr) as (n & Hn & Ht).
  exists n. split; [exact Hn | exact Ht].
Qed.

(** With a clock that returns datetimes, every stored timestamp is a
    datetime. *)
Lemma reachable_timestamps_are_datetimes (w : World) :
  (forall n, is_datetime (utcnow n)) ->
  reachable w ->
  Forall (λ r, is_datetime (timestamp r)) (db w).
Proof.
  intros Hclock Hreach. apply Forall_forall. intros r Hr.
  destruct (timestamps_are_clock_readings_aux w Hreach r Hr) as (n & _ & ->).
  apply Hclock.
Qed.

End ClockInvariant.

(** ** Payloads with line feeds only *)

Module LfPayloads.
Import Csv PyStr PyStrFacts MoreStrFacts.

Lemma rev_length s : String.length (String.rev s) = String.length s.
Proof.
  induction s as [|c s IH]; [reflexivity|].
  rewrite rev_cons, append_length, IH. simpl. lia.
Qed.

Lemma line_end_app a : forall b,
  mem LF a = false -> mem CR a = false ->
  line_end (a +:+ b) = line_end b.
Proof.
  induction a as [|c a IH]; intros b Hlf Hcr; [reflexivity|].
  rewrite mem_cons in Hlf, Hcr.
  apply orb_false_iff in Hlf as [Hlf1 Hlf], Hcr as [Hcr1 Hcr].
  rewrite append_cons. cbn [line_end]. unfold is_newline.
  rewrite (Ascii.eqb_sym c LF), (Ascii.eqb_sym c CR), Hlf1, Hcr1. simpl.
  now apply IH.
Qed.

Lemma tidy_without_newline a :
  mem LF a = false -> mem CR a = false -> tidy_line a = true.
Proof.
  intros Hlf Hcr. unfold tidy_line.
  rewrite <- (append_nil_r a), line_end_app by assumption. reflexivity.
Qed.

Lemma tidy_snoc_LF a :
  mem LF a = false -> mem CR a = false ->
  tidy_line (a +:+ String LF EmptyString) = true.
Proof.
  intros Hlf Hcr. unfold tidy_line. rewrite line_end_app by assumption.
  reflexivity.
Qed.

Lemma StringIO_go_lines s : forall cur,
  mem LF cur = false -> mem CR cur = false -> mem CR s = false ->
  Forall (fun line =>
            tidy_line line = true
            /\ (String.length line <= String.length cur + String.length s)%nat)
         (StringIO_go cur s).
Proof.
  induction s as [|c s IH]; intros cur Hlf Hcr Hs.
  - destruct cur as [|a cur]; constructor; [|constructor].
    split; [|rewrite rev_length; lia].
    apply tidy_without_newline; now rewrite mem_rev.
  - rewrite mem_cons in Hs. apply orb_false_iff in Hs as [Hc Hs].
    cbn [StringIO_go String.length].
    destruct (Ascii.eqb c LF) eqn:Hclf.
    + apply Ascii.eqb_eq in Hclf. subst c. constructor.
      * rewrite rev_cons. split.
        -- apply tidy_snoc_LF; now rewrite mem_rev.
        -- rewrite append_length, rev_length. simpl. lia.
      * eapply Forall_impl; [apply (IH EmptyString); auto|].
        intros line [Ht Hl]. split; [exact Ht|]. simpl in Hl. lia.
    + eapply Forall_impl; [apply (IH (String c cur))|].
      * now rewrite mem_cons, Ascii.eqb_sym, Hclf.
      * now rewrite mem_cons, Hc.
      * exact Hs.
      * intros line [Ht Hl]. split; [exact Ht|]. simpl in Hl. lia.
Qed.

(** A text without quotes and without carriage returns, of at most
    131072 characters, is a payload of plain lines. *)
Lemma lf_payload_is_plain text :
  mem QUOTE text = false -> mem CR text = false ->
  (N.of_nat (String.length text) <= field_limit)%N ->
  plain_payload text.
Proof.
  intros Hq Hcr Hlen. split; [exact Hq|].
  eapply Forall_impl; [apply (StringIO_go_lines text EmptyString); auto|].
  intros line [Ht Hl]. split; [exact Ht|]. simpl in Hl. lia.
Qed.

End LfPayloads.

(** * More concrete requests *)

Section MoreRuns.

Local Existing Instance run_env.

Lemma year_query_half_open_window_witness :
  1 <= 2024 <= 9998
  /\ exists readings,
       get_readings (Some 2024) None (Some 31) end_of_year_world
       = (Return (map to_dict readings), end_of_year_world)
       /\ readings ≡ₚ
            filter (λ r, in_half_open (midnight 2024 1 1)
                                      (midnight (2024 + 1) 1 1)
                                      (timestamp r)) (db end_of_year_world)
       /\ StronglySorted newest_first readings.
Proof.
  split; [lia|].
  apply (year_query_half_open_window 2024 (Some 31) end_of_year_world). lia.
Defined.

Lemma year_query_out_of_bounds_witness :
  ~ (1 <= 9999 <= 9998)
  /\ exists e,
       get_readings (Some 9999) None None end_of_year_world
       = (Uncaught e, end_of_year_world).
Proof.
  split; [lia|].
  apply (year_query_out_of_bounds 9999 None end_of_year_world). lia.
Defined.

Lemma valid_date_2024_3_15 : valid_date 2024 3 15.
Proof.
  unfold valid_date, Datetime.MINYEAR, Datetime.MAXYEAR.
  repeat split; try lia; vm_compute; discriminate.
Qed.

Lemma day_query_window_witness :
  valid_date 2024 3 15
  /\ exists readings,
       get_readings (Some 2024) (Some 3) (Some 15) end_of_day_world
       = (Return (map to_dict readings), end_of_day_world)
       /\ readings ≡ₚ
            filter (λ r, in_half_open (midnight 2024 3 15)
                                      (mk_datetime 2024 3 15 23 59 59 0)
                                      (timestamp r)) (db end_of_day_world)
       /\ StronglySorted newest_first readings.
Proof.
  split; [exact valid_date_2024_3_15|].
  exact (day_query_window 2024 3 15 end_of_day_world valid_date_2024_3_15).
Defined.

Lemma day_month_year_nested_witness :
  valid_date 2024 3 15
  /\ 2024 < Datetime.MAXYEAR
  /\ exists of_day of_month of_year,
       get_readings (Some 2024) (Some 3) (Some 15) end_of_day_world
       = (Return (map to_dict of_day), end_of_day_world)
       /\ get_readings (Some 2024) (Some 3) None end_of_day_world
          = (Return (map to_dict of_month), end_of_day_world)
       /\ get_readings (Some 2024) None None end_of_day_world
          = (Return (map to_dict of_year), end_of_day_world)
       /\ of_day ⊆ of_month /\ of_month ⊆ of_year.
Proof.
  assert (H : 2024 < Datetime.MAXYEAR) by (unfold Datetime.MAXYEAR; lia).
  split; [exact valid_date_2024_3_15|]. split; [exact H|].
  exact (day_month_year_nested 2024 3 15 end_of_day_world
           valid_date_2024_3_15 H).
Defined.

Lemma uploaded_world_follows : rtc request_step empty_world uploaded_world.
Proof. apply rtc_once. apply step_upload. Qed.

Lemma stored_readings_stay_witness :
  rtc request_step empty_world uploaded_world
  /\ db empty_world `prefix_of` db uploaded_world
  /\ files uploaded_world = files empty_world
  /\ (clock_reads empty_world <= clock_reads uploaded_world)%nat.
Proof.
  split; [exact uploaded_world_follows|].
  exact (stored_readings_stay empty_world uploaded_world
           uploaded_world_follows).
Defined.

Lemma second_scenario_reading_stored :
  batch scenario_payload empty_world !! 1%nat = Some second_scenario_reading.
Proof. reflexivity. Qed.

Lemma batch_reading_provenance_witness :
  batch scenario_payload empty_world !! 1%nat = Some second_scenario_reading
  /\ timestamp second_scenario_reading = utcnow (clock_reads empty_world + 1)
  /\ exists i row,
       fst (Csv.reader (Csv.StringIO scenario_payload)) !! i = Some row
       /\ numeric_row row = true
       /\ reading_of_row row second_scenario_reading
       /\ id second_scenario_reading
          = make_id (timestamp second_scenario_reading)
                    (longitude second_scenario_reading)
                    (latitude second_scenario_reading) i.
Proof.
  split; [exact second_scenario_reading_stored|].
  exact (batch_reading_provenance scenario_payload empty_world 1
           second_scenario_reading second_scenario_reading_stored).
Defined.

Lemma bad_row_read :
  Csv.reader (Csv.StringIO "bad,row") = ([["bad"; "row"]], None).
Proof. reflexivity. Qed.

Lemma bad_row_not_numeric :
  Forall (λ row, numeric_row row = false) [["bad"; "row"]].
Proof. repeat constructor. Qed.

Lemma upload_without_numeric_rows_witness :
  Csv.reader (Csv.StringIO "bad,row") = ([["bad"; "row"]], None)
  /\ Forall (λ row, numeric_row row = false) [["bad"; "row"]]
  /\ NoDup (map id (db uploaded_world))
  /\ upload_data "bad,row" uploaded_world
     = (Return (upload_message 0), uploaded_world).
Proof.
  assert (Hnd : NoDup (map id (db uploaded_world)))
    by (apply NoDup_singleton).
  split; [exact bad_row_read|]. split; [exact bad_row_not_numeric|].
  split; [exact Hnd|].
  exact (upload_without_numeric_rows "bad,row" uploaded_world
           [["bad"; "row"]] bad_row_read bad_row_not_numeric Hnd).
Defined.

Lemma scenario_uploaded :
  upload_data scenario_payload empty_world
  = (Return "Successfully uploaded 2 readings",
     snd (upload_data scenario_payload empty_world)).
Proof. reflexivity. Qed.

Lemma upload_then_query_all_witness :
  upload_data scenario_payload empty_world
  = (Return "Successfully uploaded 2 readings",
     snd (upload_data scenario_payload empty_world))
  /\ exists readings,
       get_readings None None None
                    (snd (upload_data scenario_payload empty_world))
       = (Return (map to_dict readings),
          snd (upload_data scenario_payload empty_world))
       /\ readings ≡ₚ db empty_world ++ batch scenario_payload empty_world
       /\ StronglySorted newest_first readings.
Proof.
  split; [exact scenario_uploaded|].
  exact (upload_then_query_all scenario_payload empty_world _ _
           scenario_uploaded).
Defined.

Lemma database_url_normalised_witness :
  Config.normalize_database_url (Some "postgres://u:p@host:5432/drone")
  = inr "postgresql+asyncpg://u:p@host:5432/drone"
  /\ ((exists rest,
         ("postgres://u:p@host:5432/drone" = "postgres://" +:+ rest
          \/ "postgres://u:p@host:5432/drone" = "postgresql://" +:+ rest)
         /\ "postgresql+asyncpg://u:p@host:5432/drone"
            = "postgresql+asyncpg://" +:+ rest)
      \/ ("postgresql+asyncpg://u:p@host:5432/drone"
          = "postgres://u:p@host:5432/drone"
          /\ Config.startswith "postgres://u:p@host:5432/drone" "postgres://"
             = false
          /\ Config.startswith "postgres://u:p@host:5432/drone" "postgresql://"
             = false))
  /\ Config.normalize_database_url
       (Some "postgresql+asyncpg://u:p@host:5432/drone")
     = inr "postgresql+asyncpg://u:p@host:5432/drone".
Proof.
  split; [reflexivity|].
  exact (database_url_normalised "postgres://u:p@host:5432/drone"
           "postgresql+asyncpg://u:p@host:5432/drone" eq_refl).
Defined.

Lemma empty_segment_is_a_key_witness :
  ("k1," = EmptyString
   \/ exists s, "k1," = s +:+ String PyStr.COMMA EmptyString)
  /\ EmptyString ∈ get_api_keys "k1,".
Proof.
  assert (H : "k1," = EmptyString
              \/ exists s, "k1," = s +:+ String PyStr.COMMA EmptyString)
    by (right; exists "k1"; reflexivity).
  split; [exact H|].
  exact (empty_segment_is_a_key "k1," H).
Defined.

Lemma blank_line_file_present :
  files world_with_blank_line !! file_path "2024-03-16"
  = Some blank_line_file.
Proof. apply lookup_singleton_eq. Qed.

Lemma blank_line_is_bad_request_witness :
  (the_key ∈ API_KEYS)
  /\ files world_with_blank_line !! file_path "2024-03-16"
     = Some blank_line_file
  /\ (PyStr.splitlines blank_line_file = [] ->
      route_files the_key "2024-03-16" world_with_blank_line
      = (Return [], world_with_blank_line))
  /\ (forall line, line ∈ PyStr.splitlines blank_line_file ->
      PyStr.strip line = EmptyString ->
      route_files the_key "2024-03-16" world_with_blank_line
      = (HTTPException 400 "Invalid date format", world_with_blank_line)).
Proof.
  split; [exact the_key_configured|].
  split; [exact blank_line_file_present|].
  exact (blank_line_is_bad_request the_key "2024-03-16" blank_line_file
           world_with_blank_line the_key_configured blank_line_file_present).
Defined.

(** The file with the blank line is refused. *)
Example blank_line_file_refused :
  route_files the_key "2024-03-16" world_with_blank_line
  = (HTTPException 400 "Invalid date format", world_with_blank_line).
Proof. reflexivity. Qed.

Lemma scenario_payload_plain : plain_payload scenario_payload.
Proof.
  apply LfPayloads.lf_payload_is_plain; [reflexivity | reflexivity |].
  vm_compute. discriminate.
Qed.

Lemma plain_upload_stores_numeric_lines_witness :
  plain_payload scenario_payload
  /\ NoDup (map id (db empty_world ++ batch scenario_payload empty_world))
  /\ exists readings,
       upload_data scenario_payload empty_world
       = (Return (upload_message
                    (length (filter (λ line, numeric_row (row_of_line line))
                                    (Csv.StringIO scenario_payload)))),
          mk_world (db empty_world ++ readings)
                   (clock_reads empty_world + length readings)
                   (files empty_world))
       /\ Forall2 (λ line r, reading_of_row (row_of_line line) r)
                  (filter (λ line, numeric_row (row_of_line line))
                          (Csv.StringIO scenario_payload))
                  readings.
Proof.
  split; [exact scenario_payload_plain|].
  split; [exact (batch_ids_NoDup scenario_payload empty_world)|].
  exact (plain_upload_stores_numeric_lines scenario_payload empty_world
           scenario_payload_plain
           (batch_ids_NoDup scenario_payload empty_world)).
Defined.

End MoreRuns.

Section CalendarRuns.

Local Existing Instance run_env.

Lemma end_of_year_timestamps :
  Forall (λ r, is_datetime (timestamp r)) (db end_of_year_world).
Proof. repeat constructor. Qed.

Lemma end_of_day_timestamps :
  Forall (λ r, is_datetime (timestamp r)) (db end_of_day_world).
Proof. repeat constructor. Qed.

Lemma year_query_by_calendar_witness :
  1 <= 2024 <= 9998
  /\ Forall (λ r, is_datetime (timestamp r)) (db end_of_year_world)
  /\ exists readings,
       get_readings (Some 2024) None None end_of_year_world
       = (Return (map to_dict readings), end_of_year_world)
       /\ forall r, r ∈ readings
                    <-> r ∈ db end_of_year_world
                        /\ dt_year (timestamp r) = 2024.
Proof.
  split; [lia|]. split; [exact end_of_year_timestamps|].
  apply (year_query_by_calendar 2024 None end_of_year_world);
    [lia | exact end_of_year_timestamps].
Defined.

Lemma month_query_by_calendar_witness :
  Datetime.MINYEAR <= 2024 <= Datetime.MAXYEAR
  /\ 1 <= 12 <= 12
  /\ (12 = 12 -> 2024 < Datetime.MAXYEAR)
  /\ Forall (λ r, is_datetime (timestamp r)) (db end_of_year_world)
  /\ exists readings,
       get_readings (Some 2024) (Some 12) None end_of_year_world
       = (Return (map to_dict readings), end_of_year_world)
       /\ forall r, r ∈ readings
                    <-> r ∈ db end_of_year_world
                        /\ dt_year (timestamp r) = 2024
                        /\ dt_month (timestamp r) = 12.
Proof.
  unfold Datetime.MINYEAR, Datetime.MAXYEAR.
  split; [lia|]. split; [lia|]. split; [lia|].
  split; [exact end_of_year_timestamps|].
  apply (month_query_by_calendar 2024 12 end_of_year_world);
    unfold Datetime.MINYEAR, Datetime.MAXYEAR;
    [lia | lia | lia | exact end_of_year_timestamps].
Defined.

Lemma day_query_by_calendar_witness :
  valid_date 2024 3 15
  /\ Forall (λ r, is_datetime (timestamp r)) (db end_of_day_world)
  /\ exists readings,
       get_readings (Some 2024) (Some 3) (Some 15) end_of_day_world
       = (Return (map to_dict readings), end_of_day_world)
       /\ forall r, r ∈ readings
                    <-> r ∈ db end_of_day_world
                        /\ dt_year (timestamp r) = 2024
                        /\ dt_month (timestamp r) = 3
                        /\ dt_day (timestamp r) = 15
                        /\ ~ (dt_hour (timestamp r) = 23
                              /\ dt_minute (timestamp r) = 59
                              /\ dt_second (timestamp r) = 59).
Proof.
  split; [exact valid_date_2024_3_15|].
  split; [exact end_of_day_timestamps|].
  exact (day_query_by_calendar 2024 3 15 end_of_day_world
           valid_date_2024_3_15 end_of_day_timestamps).
Defined.

End CalendarRuns.

Section ClockRuns.

Local Existing Instance run_env.

Lemma timestamps_are_clock_readings_witness :
  reachable uploaded_world
  /\ forall r, r ∈ db uploaded_world ->
       exists n, (n < clock_reads uploaded_world)%nat
                 /\ timestamp r = utcnow n.
Proof.
  split; [exact uploaded_world_reachable|].
  exact (timestamps_are_clock_readings uploaded_world uploaded_world_reachable).
Defined.

End ClockRuns.
